(** * GiftFlow mock API: a shallow embedding of [src/main.py]

    The service keeps three process-wide tables ([MOCK_USERS], [MOCK_TOKENS],
    [MOCK_EVENTS]) and exposes signup, login, identity lookup and two event
    routes over them.  The tables become one [Store] record threaded through
    a small state-and-exception monad; every route handler is a computation
    in that monad, and [handle] dispatches a request to its handler the way
    the FastAPI application does. *)

From Stdlib Require Import PrimFloat Ascii.
From stdpp Require Import base decidable option list strings pretty gmap fin_maps.

Local Open Scope string_scope.

(** ** Python strings *)

Module PyStr.

(** Truthiness of a [str]: only the empty string is falsy. *)
Definition truthy (s : string) : bool :=
  match s with
  | EmptyString => false
  | String _ _ => true
  end.

(** Truthiness of an [Optional[str]]: [None] and [""] are falsy. *)
Definition truthy_opt (o : option string) : bool :=
  match o with
  | None => false
  | Some s => truthy s
  end.

(** [x or y] where [x : Optional[str]] and [y : str]. *)
Definition or_else (x : option string) (y : string) : string :=
  match x with
  | Some s => if truthy s then s else y
  | None => y
  end.

(** [startswith old s]: [old] is a prefix of [s]. *)
Fixpoint startswith (old s : string) : bool :=
  match old, s with
  | EmptyString, _ => true
  | String a old', String b s' => if Ascii.eqb a b then startswith old' s' else false
  | String _ _, EmptyString => false
  end.

(** The scan of [str.replace] for a non-empty [old]: left to right, every
    occurrence that does not overlap an earlier one is replaced.  [skip]
    counts the characters of the current occurrence still to be dropped. *)
Fixpoint replace_scan (old new : string) (skip : nat) (s : string) : string :=
  match s with
  | EmptyString => EmptyString
  | String c s' =>
      match skip with
      | S k => replace_scan old new k s'
      | O =>
          if startswith old s
          then new +:+ replace_scan old new (String.length old - 1) s'
          else String c (replace_scan old new O s')
      end
  end.

(** With an empty [old], Python puts [new] before every character and at
    the end. *)
Fixpoint replace_empty (new s : string) : string :=
  match s with
  | EmptyString => new
  | String c s' => new +:+ String c (replace_empty new s')
  end.

(** [s.replace(old, new)]. *)
Definition replace (s old new : string) : string :=
  match old with
  | EmptyString => replace_empty new s
  | String _ _ => replace_scan old new O s
  end.

(** [s.removeprefix(old)], what stripping a prefix means. *)
Fixpoint removeprefix_go (old s : string) : option string :=
  match old, s with
  | EmptyString, _ => Some s
  | String a old', String b s' =>
      if Ascii.eqb a b then removeprefix_go old' s' else None
  | String _ _, EmptyString => None
  end.

Definition removeprefix (s old : string) : string :=
  match removeprefix_go old s with
  | Some rest => rest
  | None => s
  end.

(** [c] does not occur in [s]. *)
Fixpoint lacks (c : ascii) (s : string) : bool :=
  match s with
  | EmptyString => true
  | String a s' => negb (Ascii.eqb a c) && lacks c s'
  end.

Definition is_digit (c : ascii) : bool :=
  Nat.leb 48 (nat_of_ascii c) && Nat.leb (nat_of_ascii c) 57.

Fixpoint all_digits (s : string) : bool :=
  match s with
  | EmptyString => true
  | String a s' => is_digit a && all_digits s'
  end.

End PyStr.

(** ** Python dicts whose iteration order is observed

    [MOCK_TOKENS] is iterated by [login], so its insertion order is part of
    the behaviour: an ordered list of items, where assigning to a present key
    keeps its position and assigning to a new key appends. *)

Module PyDict.
Section Dict.
Context {V : Type}.

Definition t := list (string * V).

(** [d.get(k)] *)
Fixpoint get (d : list (string * V)) (k : string) : option V :=
  match d with
  | [] => None
  | (k', v) :: d' => if String.eqb k' k then Some v else get d' k
  end.

(** [d[k] = v] *)
Fixpoint set (d : list (string * V)) (k : string) (v : V) : list (string * V) :=
  match d with
  | [] => [(k, v)]
  | (k', v') :: d' =>
      if String.eqb k' k then (k', v) :: d' else (k', v') :: set d' k v
  end.

(** [d.items()] *)
Definition items (d : list (string * V)) : list (string * V) := d.

(** [len(d)] *)
Definition len (d : list (string * V)) : nat := length d.

Definition keys (d : list (string * V)) : list string := map fst d.
End Dict.
End PyDict.

(** ** JSON values, for response bodies *)

#[local] Set Warnings "-register-all".

Inductive json : Type :=
| JNull
| JBool (b : bool)
| JNum (x : float)
| JStr (s : string)
| JArr (items : list json)
| JObj (fields : list (string * json)).

(** Some object inside [j], at any depth, has the key [k]. *)
Fixpoint has_key (k : string) (j : json) : bool :=
  match j with
  | JArr js =>
      (fix any (l : list json) : bool :=
         match l with
         | [] => false
         | x :: l' => has_key k x || any l'
         end) js
  | JObj fs =>
      (fix any (l : list (string * json)) : bool :=
         match l with
         | [] => false
         | (k', v) :: l' => String.eqb k' k || has_key k v || any l'
         end) fs
  | _ => false
  end.

(** The keys of an object, in order. *)
Definition obj_keys (j : json) : list string :=
  match j with
  | JObj fs => map fst fs
  | _ => []
  end.

(** ** Data model *)

(** A record of [MOCK_USERS]: a dict with the keys [name], [email],
    [password] and [id]. *)
Record User := mkUser {
  user_name : string;
  user_email : string;
  user_password : string;
  user_id : string
}.

Record SignupRequest := mkSignupRequest {
  signup_name : string;
  signup_email : string;
  signup_password : string
}.

Record LoginRequest := mkLoginRequest {
  login_email : string;
  login_password : string
}.

Record AuthResponse := mkAuthResponse {
  auth_token : string;
  auth_name : string;
  auth_email : string;
  auth_userId : string
}.

Record EventCreate := mkEventCreate {
  ec_name : string;
  ec_date : string;
  ec_budget : option float;
  ec_participants : list string;
  ec_event_type : option string;
  ec_allow_wishlists : option bool;
  ec_collect_addresses : option bool;
  ec_custom_message : option string
}.

Record Event := mkEvent {
  ev_id : string;
  ev_name : string;
  ev_date : string;
  ev_budget : option float;
  ev_participants : list string;
  ev_ownerId : string;
  ev_status : string;
  ev_event_type : option string;
  ev_allow_wishlists : option bool;
  ev_collect_addresses : option bool;
  ev_custom_message : option string
}.

(** The keyword arguments a caller may leave out when an [EventCreate] is
    built: [None] is an omitted field, which takes the default declared in
    the class.  Fields the class does not declare ([extra], for instance a
    [status] or an [ownerId]) are dropped. *)
Record EventCreateFields := mkEventCreateFields {
  given_budget : option (option float);
  given_participants : option (list string);
  given_event_type : option (option string);
  given_allow_wishlists : option (option bool);
  given_collect_addresses : option (option bool);
  given_custom_message : option (option string);
  extra : list (string * json)
}.

Definition EventCreate_init (name date : string) (f : EventCreateFields) : EventCreate :=
  {| ec_name := name;
     ec_date := date;
     ec_budget := default None (given_budget f);
     ec_participants := default [] (given_participants f);
     ec_event_type := default (Some "Secret Santa") (given_event_type f);
     ec_allow_wishlists := default (Some true) (given_allow_wishlists f);
     ec_collect_addresses := default (Some false) (given_collect_addresses f);
     ec_custom_message := default None (given_custom_message f) |}.

(** The three tables. *)
Record Store := mkStore {
  MOCK_USERS : gmap string User;
  MOCK_TOKENS : list (string * string);
  MOCK_EVENTS : list Event
}.

Definition demo_user : User :=
  {| user_name := "Demo User";
     user_email := "demo@giftflow.app";
     user_password := "demo123";
     user_id := "u_demo_1" |}.

Definition demo_event : Event :=
  {| ev_id := "evt_1";
     ev_name := "Holiday Gift Swap";
     ev_date := "2025-12-15";
     ev_budget := Some 40%float;
     ev_participants := ["Alice"; "Bob"; "Charlie"];
     ev_ownerId := "u_demo_1";
     ev_status := "draft";
     ev_event_type := Some "Secret Santa";
     ev_allow_wishlists := Some true;
     ev_collect_addresses := Some false;
     ev_custom_message := Some "Welcome to our annual swap!" |}.

(** The tables as the module initialises them. *)
Definition initial_store : Store :=
  {| MOCK_USERS := {[ "demo@giftflow.app" := demo_user ]};
     MOCK_TOKENS := [];
     MOCK_EVENTS := [demo_event] |}.

(** ** The handler monad

    A handler reads and writes the tables and may raise [HTTPException].
    Raising does not undo earlier writes, so the store is returned next to
    the outcome in both cases. *)

Inductive Result (A : Type) : Type :=
| Ok (a : A)
| HTTPException (status_code : nat) (detail : string).
Arguments Ok {A} a.
Arguments HTTPException {A} status_code detail.

Definition Handler (A : Type) : Type := Store -> Result A * Store.

#[global] Instance Handler_ret : MRet Handler := fun A a s => (Ok a, s).

#[global] Instance Handler_bind : MBind Handler := fun A B k m s =>
  match m s with
  | (Ok a, s') => k a s'
  | (HTTPException c d, s') => (HTTPException c d, s')
  end.

Definition raise {A : Type} (status_code : nat) (detail : string) : Handler A :=
  fun s => (HTTPException status_code detail, s).

Definition gets {A : Type} (f : Store -> A) : Handler A :=
  fun s => (Ok (f s), s).

Definition modify (f : Store -> Store) : Handler unit :=
  fun s => (Ok tt, f s).

Definition set_users (f : gmap string User -> gmap string User) (s : Store) : Store :=
  {| MOCK_USERS := f (MOCK_USERS s); MOCK_TOKENS := MOCK_TOKENS s; MOCK_EVENTS := MOCK_EVENTS s |}.

Definition set_tokens (f : list (string * string) -> list (string * string)) (s : Store) : Store :=
  {| MOCK_USERS := MOCK_USERS s; MOCK_TOKENS := f (MOCK_TOKENS s); MOCK_EVENTS := MOCK_EVENTS s |}.

Definition set_events (f : list Event -> list Event) (s : Store) : Store :=
  {| MOCK_USERS := MOCK_USERS s; MOCK_TOKENS := MOCK_TOKENS s; MOCK_EVENTS := f (MOCK_EVENTS s) |}.

(** ** Helpers *)

(** [get_user_from_token]: the token table, then the user table.  [not email]
    holds for a missing token and for an empty address; a user record is a
    dict of four keys, so [not user] holds only for a missing record. *)
Definition get_user_from_token (token : string) : Handler User :=
  email ← gets (fun s => PyDict.get (MOCK_TOKENS s) token);
  if negb (PyStr.truthy_opt email) then raise 401 "Invalid token"
  else
    user ← gets (fun s => MOCK_USERS s !! default "" email);
    match user with
    | None => raise 401 "User not found"
    | Some u => mret u
    end.

(** [current_user], the dependency of the identity-scoped routes.  The header
    is [None] when the request does not carry it. *)
Definition current_user (authorization : option string) : Handler User :=
  if negb (PyStr.truthy_opt authorization)
  then raise 401 "Missing Authorization header"
  else
    let token := PyStr.replace (default "" authorization) "Bearer " "" in
    get_user_from_token token.

(** ** Base routes *)

Definition read_root : json :=
  JObj [("message", JStr "GiftFlow Mock API running")].

Definition hello : json :=
  JObj [("message", JStr "Hello from GiftFlow backend!")].

Definition test_database : json :=
  JObj [("backend", JStr "✅ Running");
        ("database", JStr "⏸️ Mock mode (no DB)");
        ("database_url", JStr "❌ Not Set");
        ("database_name", JStr "❌ Not Set");
        ("connection_status", JStr "Mock");
        ("collections", JArr [])].

(** ** Auth *)

Definition signup (payload : SignupRequest) : Handler AuthResponse :=
  users ← gets MOCK_USERS;
  match users !! signup_email payload with
  | Some _ => raise 400 "Email already in use"
  | None =>
      let user_id := "u_" +:+ pretty (size users + 1) in
      modify (set_users (insert (signup_email payload)
                {| user_name := signup_name payload;
                   user_email := signup_email payload;
                   user_password := signup_password payload;
                   user_id := user_id |}));;
      let token := "mocktoken_" +:+ user_id in
      modify (set_tokens (fun d => PyDict.set d token (signup_email payload)));;
      mret {| auth_token := token;
              auth_name := signup_name payload;
              auth_email := signup_email payload;
              auth_userId := user_id |}
  end.

(** The loop of [login] over [MOCK_TOKENS.items()]: the first token whose
    address is [email], [None] when the loop ends without a [break]. *)
Fixpoint existing_token (items : list (string * string)) (email : string) : option string :=
  match items with
  | [] => None
  | (t, e) :: rest => if String.eqb e email then Some t else existing_token rest email
  end.

(** Building the [AuthResponse] is the last step and comes after the write
    to [MOCK_TOKENS]; the check it runs on the stored address is
    [AuthResponse_validates] below, shown to pass in every reachable store,
    and is not a step of the handler here. *)
Definition login (payload : LoginRequest) : Handler AuthResponse :=
  user ← gets (fun s => MOCK_USERS s !! login_email payload);
  match user with
  | None => raise 401 "Invalid email or password"
  | Some u =>
      if negb (String.eqb (user_password u) (login_password payload))
      then raise 401 "Invalid email or password"
      else
        found ← gets (fun s => existing_token (PyDict.items (MOCK_TOKENS s)) (login_email payload));
        let token := PyStr.or_else found ("mocktoken_" +:+ user_id u) in
        modify (set_tokens (fun d => PyDict.set d token (login_email payload)));;
        mret {| auth_token := token;
                auth_name := user_name u;
                auth_email := user_email u;
                auth_userId := user_id u |}
  end.

Definition me (user : User) : json :=
  JObj [("name", JStr (user_name user));
        ("email", JStr (user_email user));
        ("userId", JStr (user_id user))].

(** ** Events *)

(** Building an [Event] from a stored dict gives back the record the dict
    was dumped from, so the comprehension is a filter on the owner. *)
Definition list_events (user : User) : Handler (list Event) :=
  events ← gets MOCK_EVENTS;
  mret (filter (fun e => ev_ownerId e = user_id user) events).

(** [l or d] on lists: the empty list is falsy. *)
Definition list_or {A : Type} (l d : list A) : list A :=
  match l with
  | [] => d
  | _ :: _ => l
  end.

Definition create_event (payload : EventCreate) (user : User) : Handler Event :=
  n ← gets (fun s => length (MOCK_EVENTS s));
  let new_id := "evt_" +:+ pretty (n + 1) in
  let event :=
    {| ev_id := new_id;
       ev_name := ec_name payload;
       ev_date := ec_date payload;
       ev_budget := ec_budget payload;
       ev_participants := list_or (ec_participants payload) [];
       ev_ownerId := user_id user;
       ev_status := "draft";
       ev_event_type := Some (PyStr.or_else (ec_event_type payload) "Secret Santa");
       ev_allow_wishlists := Some (default true (ec_allow_wishlists payload));
       ev_collect_addresses := Some (default false (ec_collect_addresses payload));
       ev_custom_message := ec_custom_message payload |} in
  modify (set_events (fun l => (l ++ [event])%list));;
  mret event.

(** ** The application: routes, requests and responses *)

(** An identity-scoped route runs its dependency [current_user] first. *)
Definition route_me (authorization : option string) : Handler json :=
  user ← current_user authorization;
  mret (me user).

Definition route_list_events (authorization : option string) : Handler (list Event) :=
  user ← current_user authorization;
  list_events user.

Definition route_create_event (authorization : option string) (payload : EventCreate)
  : Handler Event :=
  user ← current_user authorization;
  create_event payload user.

Definition opt_json {A : Type} (f : A -> json) (o : option A) : json :=
  match o with
  | None => JNull
  | Some a => f a
  end.

(** The body a [response_model] is serialised to: the declared fields. *)
Definition AuthResponse_dump (r : AuthResponse) : json :=
  JObj [("token", JStr (auth_token r));
        ("name", JStr (auth_name r));
        ("email", JStr (auth_email r));
        ("userId", JStr (auth_userId r))].

(** A float that is not finite (an infinity or a NaN) is serialised as
    [null]. *)
Definition float_json (x : float) : json :=
  if PrimFloat.is_finite x then JNum x else JNull.

Definition Event_dump (e : Event) : json :=
  JObj [("id", JStr (ev_id e));
        ("name", JStr (ev_name e));
        ("date", JStr (ev_date e));
        ("budget", opt_json float_json (ev_budget e));
        ("participants", JArr (map JStr (ev_participants e)));
        ("ownerId", JStr (ev_ownerId e));
        ("status", JStr (ev_status e));
        ("event_type", opt_json JStr (ev_event_type e));
        ("allow_wishlists", opt_json JBool (ev_allow_wishlists e));
        ("collect_addresses", opt_json JBool (ev_collect_addresses e));
        ("custom_message", opt_json JStr (ev_custom_message e))].

Record Response := mkResponse {
  status_code : nat;
  body : json
}.

(** A result becomes 200 with its body; an [HTTPException] becomes its status
    code with a [detail] field. *)
Definition respond {A : Type} (dump : A -> json) (h : Handler A) (s : Store)
  : Response * Store :=
  match h s with
  | (Ok a, s') => ({| status_code := 200; body := dump a |}, s')
  | (HTTPException c d, s') =>
      ({| status_code := c; body := JObj [("detail", JStr d)] |}, s')
  end.

(** A request that passed routing and validation of its body. *)
Inductive Request : Type :=
| GetRoot
| GetHello
| GetTest
| PostSignup (payload : SignupRequest)
| PostLogin (payload : LoginRequest)
| GetMe (authorization : option string)
| GetEvents (authorization : option string)
| PostEvents (authorization : option string) (payload : EventCreate).

Definition handle (req : Request) : Store -> Response * Store :=
  match req with
  | GetRoot => respond (fun j => j) (mret read_root)
  | GetHello => respond (fun j => j) (mret hello)
  | GetTest => respond (fun j => j) (mret test_database)
  | PostSignup payload => respond AuthResponse_dump (signup payload)
  | PostLogin payload => respond AuthResponse_dump (login payload)
  | GetMe authorization => respond (fun j => j) (route_me authorization)
  | GetEvents authorization =>
      respond (fun l => JArr (map Event_dump l)) (route_list_events authorization)
  | PostEvents authorization payload =>
      respond Event_dump (route_create_event authorization payload)
  end.

(** The store after a sequence of requests. *)
Fixpoint run (reqs : list Request) (s : Store) : Store :=
  match reqs with
  | [] => s
  | req :: rest => run rest (handle req s).2
  end.

(** ** Reachable stores

    [EmailStr] is pydantic's type of validated addresses; its check is not
    part of the repository and is a parameter here.  A request reaches its
    handler only when the addresses of its body pass the check. *)

Section Reachability.

Variable valid_email : string -> bool.

Definition valid_request (req : Request) : bool :=
  match req with
  | PostSignup payload => valid_email (signup_email payload)
  | PostLogin payload => valid_email (login_email payload)
  | _ => true
  end.

Inductive reachable : Store -> Prop :=
| reachable_initial : reachable initial_store
| reachable_handle (s : Store) (req : Request) :
    reachable s -> valid_request req = true -> reachable (handle req s).2.

End Reachability.

(** A small address check to run the model with: an [@] somewhere. *)
Definition has_at (s : string) : bool := negb (PyStr.lacks "@"%char s).

(** ** Names for what the handlers compute *)

(** The identifier [signup] gives the next user. *)
Definition new_user_id (s : Store) : string :=
  "u_" +:+ pretty (size (MOCK_USERS s) + 1).

(** The token made from a user identifier. *)
Definition mint (user_id : string) : string := "mocktoken_" +:+ user_id.

(** The token [login] answers with: the one found by the loop, or a new one
    when the loop found none (or found the empty string). *)
Definition login_token (s : Store) (payload : LoginRequest) (u : User) : string :=
  PyStr.or_else (existing_token (MOCK_TOKENS s) (login_email payload)) (mint (user_id u)).

(** The event [create_event] builds in the store [s]. *)
Definition new_event (s : Store) (payload : EventCreate) (user : User) : Event :=
  {| ev_id := "evt_" +:+ pretty (length (MOCK_EVENTS s) + 1);
     ev_name := ec_name payload;
     ev_date := ec_date payload;
     ev_budget := ec_budget payload;
     ev_participants := list_or (ec_participants payload) [];
     ev_ownerId := user_id user;
     ev_status := "draft";
     ev_event_type := Some (PyStr.or_else (ec_event_type payload) "Secret Santa");
     ev_allow_wishlists := Some (default true (ec_allow_wishlists payload));
     ev_collect_addresses := Some (default false (ec_collect_addresses payload));
     ev_custom_message := ec_custom_message payload |}.

(** ** Well-formed stores *)

(** What holds of every store the application can be in: a record is stored
    under its own, non-empty address; identifiers are [u_demo_1] or numbered
    up to the size of the table, and no two records share one; every token
    is the one minted from the identifier of the user it maps to; the event
    at position [i] is numbered [i + 1]. *)
Record store_inv (s : Store) : Prop := mk_store_inv {
  inv_email_key : forall e u, MOCK_USERS s !! e = Some u -> user_email u = e;
  inv_email_truthy : forall e u, MOCK_USERS s !! e = Some u -> PyStr.truthy e = true;
  inv_user_ids : forall e u, MOCK_USERS s !! e = Some u ->
    user_id u = "u_demo_1" \/
    exists k, k <= size (MOCK_USERS s) /\ user_id u = "u_" +:+ pretty k;
  inv_user_ids_inj : forall e1 e2 u1 u2,
    MOCK_USERS s !! e1 = Some u1 -> MOCK_USERS s !! e2 = Some u2 ->
    user_id u1 = user_id u2 -> e1 = e2;
  inv_tokens_keys : NoDup (PyDict.keys (MOCK_TOKENS s));
  inv_tokens : forall t e, (t, e) ∈ MOCK_TOKENS s ->
    exists u, MOCK_USERS s !! e = Some u /\ t = mint (user_id u);
  inv_event_ids : forall i ev, MOCK_EVENTS s !! i = Some ev ->
    ev_id ev = "evt_" +:+ pretty (i + 1)
}.

(** The bundle [r] names a record of the user table, and its token maps to
    the address of that record. *)
Definition issued (s : Store) (r : AuthResponse) (A : User) : Prop :=
  MOCK_USERS s !! auth_email r = Some A
  /\ user_name A = auth_name r
  /\ user_email A = auth_email r
  /\ user_id A = auth_userId r
  /\ PyDict.get (MOCK_TOKENS s) (auth_token r) = Some (auth_email r)
  /\ auth_token r = mint (user_id A).

(** The address is the key of its record and no two records share one;
    no two records share an identifier; the token table has each token once;
    no two events share an identifier. *)
Record data_invariants (s : Store) : Prop := mk_data_invariants {
  email_is_key : forall e u, MOCK_USERS s !! e = Some u -> user_email u = e;
  email_unique : forall e1 e2 u1 u2,
    MOCK_USERS s !! e1 = Some u1 -> MOCK_USERS s !! e2 = Some u2 ->
    user_email u1 = user_email u2 -> e1 = e2 /\ u1 = u2;
  user_id_unique : forall e1 e2 u1 u2,
    MOCK_USERS s !! e1 = Some u1 -> MOCK_USERS s !! e2 = Some u2 ->
    user_id u1 = user_id u2 -> e1 = e2 /\ u1 = u2;
  token_once : NoDup (PyDict.keys (MOCK_TOKENS s));
  event_id_unique : NoDup (ev_id <$> MOCK_EVENTS s)
}.

(** ** Sample requests and stores *)

Definition demo_login : Request :=
  PostLogin {| login_email := "demo@giftflow.app"; login_password := "demo123" |}.

Definition alice_signup : Request :=
  PostSignup {| signup_name := "A"; signup_email := "a@x.com"; signup_password := "p" |}.

Definition demo_store : Store := run [demo_login] initial_store.

Definition alice_store : Store := run [alice_signup; demo_login] initial_store.

Definition alice : User :=
  {| user_name := "A"; user_email := "a@x.com"; user_password := "p"; user_id := "u_2" |}.

Definition no_fields : EventCreateFields :=
  {| given_budget := None;
     given_participants := None;
     given_event_type := None;
     given_allow_wishlists := None;
     given_collect_addresses := None;
     given_custom_message := None;
     extra := [("status", JStr "published"); ("ownerId", JStr "u_demo_1")] |}.

(** ** Validation of a response bundle *)

(** What building an [AuthResponse] checks: its [email] field is an
    [EmailStr].  The other three fields are plain strings. *)
Definition AuthResponse_validates (valid_email : string -> bool) (r : AuthResponse) : bool :=
  valid_email (auth_email r).

(** ** Stores and requests with the passwords blanked *)

Definition redact_user (u : User) : User :=
  {| user_name := user_name u;
     user_email := user_email u;
     user_password := "";
     user_id := user_id u |}.

Definition redact_store (s : Store) : Store :=
  set_users (fmap redact_user) s.

Definition redact_request (req : Request) : Request :=
  match req with
  | PostSignup payload =>
      PostSignup {| signup_name := signup_name payload;
                    signup_email := signup_email payload;
                    signup_password := "" |}
  | PostLogin payload =>
      PostLogin {| login_email := login_email payload; login_password := "" |}
  | _ => req
  end.

(** ** A token table seeded by hand

    Two tokens for the demo address, in this order, and one for an address
    without a user. *)
Definition seeded_store : Store :=
  {| MOCK_USERS := MOCK_USERS initial_store;
     MOCK_TOKENS := [("other", "nobody@giftflow.app");
                     ("zzz", "demo@giftflow.app");
                     ("aaa", "demo@giftflow.app")];
     MOCK_EVENTS := MOCK_EVENTS initial_store |}.

(** The sample store, had the second user chosen another password. *)
Definition alice_store_q : Store :=
  run [PostSignup {| signup_name := "A"; signup_email := "a@x.com"; signup_password := "q" |};
       demo_login] initial_store.

(** * Properties *)

Ltac unfold_handler :=
  unfold mbind, mret, Handler_bind, Handler_ret, gets, modify, raise,
    set_users, set_tokens, set_events; simpl.

(** ** Strings *)

Module PyStrFacts.
Import PyStr.

Lemma lacks_app c s1 s2 :
  lacks c (s1 +:+ s2) = lacks c s1 && lacks c s2.
Proof.
  induction s1 as [|a s1 IH]; simpl; [done|].
  rewrite IH. by rewrite andb_assoc.
Qed.

Lemma all_digits_lacks c s :
  is_digit c = false -> all_digits s = true -> lacks c s = true.
Proof.
  intros Hc. induction s as [|a s IH]; simpl; [done|].
  intros [Ha Hs]%andb_true_iff. rewrite IH by done.
  destruct (Ascii.eqb_spec a c) as [->|]; [congruence|done].
Qed.

Lemma pretty_N_go_digits x s :
  all_digits s = true -> all_digits (pretty_N_go x s) = true.
Proof.
  revert s. induction (N.lt_wf_0 x) as [x _ IH]; intros s Hs.
  assert (x = 0 \/ 0 < x)%N as [->|Hx] by lia.
  - by rewrite pretty_N_go_0.
  - rewrite pretty_N_go_step by done. apply IH; [by apply N.div_lt|].
    simpl. rewrite Hs, andb_true_r.
    unfold pretty_N_char. by repeat case_match.
Qed.

Lemma pretty_nat_digits (n : nat) : all_digits (pretty n) = true.
Proof.
  unfold pretty, pretty_nat, pretty, pretty_N.
  case_decide; [done|]. by apply pretty_N_go_digits.
Qed.

Lemma pretty_nat_lacks c (n : nat) : is_digit c = false -> lacks c (pretty n) = true.
Proof. intros Hc. apply all_digits_lacks; [done|apply pretty_nat_digits]. Qed.

(** No occurrence can start where the first character of [old] is absent. *)
Lemma replace_scan_lacks c old new s :
  lacks c s = true -> replace_scan (String c old) new 0 s = s.
Proof.
  induction s as [|a s IH]; [done|].
  cbn [lacks replace_scan startswith].
  intros [Ha Hs]%andb_true_iff.
  rewrite Ascii.eqb_sym. apply negb_true_iff in Ha. rewrite Ha.
  by rewrite IH.
Qed.

Lemma replace_scan_skip old new s1 s2 :
  replace_scan old new (String.length s1) (s1 +:+ s2) = replace_scan old new 0 s2.
Proof. induction s1 as [|a s1 IH]; simpl; [by destruct s2|done]. Qed.

(** The header [Bearer <token>] gives back the token when the token has no
    capital B. *)
Lemma replace_Bearer_prefix t :
  lacks "B" t = true -> replace ("Bearer " +:+ t) "Bearer " "" = t.
Proof.
  intros Ht. unfold replace. cbn.
  by apply (replace_scan_lacks "B" "earer " "" t).
Qed.

End PyStrFacts.

(** ** Ordered dicts *)

Module PyDictFacts.
Section Facts.
Context {V : Type}.
Implicit Types (d : list (string * V)) (k : string) (v : V).

Lemma get_set_eq d k v : PyDict.get (PyDict.set d k v) k = Some v.
Proof.
  induction d as [|[k' v'] d IH]; simpl.
  - by rewrite String.eqb_refl.
  - destruct (String.eqb_spec k' k) as [->|Hne]; simpl.
    + by rewrite String.eqb_refl.
    + apply String.eqb_neq in Hne. by rewrite Hne.
Qed.

Lemma get_set_ne d k k' v : k <> k' -> PyDict.get (PyDict.set d k v) k' = PyDict.get d k'.
Proof.
  intros Hne. induction d as [|[k0 v0] d IH]; simpl.
  - apply String.eqb_neq in Hne. by rewrite Hne.
  - destruct (String.eqb_spec k0 k) as [->|Hk]; simpl.
    + apply String.eqb_neq in Hne. by rewrite Hne.
    + by rewrite IH.
Qed.

Lemma get_Some_elem d k v : PyDict.get d k = Some v -> (k, v) ∈ d.
Proof.
  induction d as [|[k0 v0] d IH]; simpl; [done|].
  destruct (String.eqb_spec k0 k) as [->|Hk].
  - intros [= ->]. left.
  - intros H. right. by apply IH.
Qed.

Lemma get_None_keys d k : PyDict.get d k = None <-> k ∉ PyDict.keys d.
Proof.
  unfold PyDict.keys. induction d as [|[k0 v0] d IH]; simpl.
  - split; [intros _; apply not_elem_of_nil|done].
  - rewrite not_elem_of_cons. destruct (String.eqb_spec k0 k) as [->|Hk].
    + split; [done|]. by intros [? _].
    + rewrite IH. split; [by split|by intros [_ ?]].
Qed.

(** Assigning keeps the earlier items and their order; a present key
    keeps its place, a new key goes last. *)
Lemma set_present d k v v0 :
  PyDict.get d k = Some v0 -> PyDict.keys (PyDict.set d k v) = PyDict.keys d.
Proof.
  unfold PyDict.keys. induction d as [|[k0 v1] d IH]; simpl; [done|].
  destruct (String.eqb_spec k0 k) as [->|Hk]; simpl; [done|].
  intros H. by rewrite IH.
Qed.

Lemma set_absent d k v : PyDict.get d k = None -> PyDict.set d k v = (d ++ [(k, v)])%list.
Proof.
  induction d as [|[k0 v1] d IH]; simpl; [done|].
  destruct (String.eqb_spec k0 k) as [->|Hk]; simpl; [done|].
  intros H. by rewrite IH.
Qed.

Lemma set_same d k v : PyDict.get d k = Some v -> PyDict.set d k v = d.
Proof.
  induction d as [|[k0 v1] d IH]; simpl; [done|].
  destruct (String.eqb_spec k0 k) as [->|Hk]; simpl.
  - by intros [= ->].
  - intros H. by rewrite IH.
Qed.

Lemma elem_of_set d k v k' v' :
  (k', v') ∈ PyDict.set d k v -> (k', v') = (k, v) \/ (k', v') ∈ d.
Proof.
  induction d as [|[k0 v0] d IH]; simpl.
  - intros ->%list_elem_of_singleton. by left.
  - destruct (String.eqb_spec k0 k) as [->|Hk].
    + intros [->|H]%elem_of_cons; [by left|]. right. by right.
    + intros [->|H]%elem_of_cons; [right; left|].
      destruct (IH H) as [?|?]; [by left|]. right. by right.
Qed.

Lemma set_NoDup d k v : NoDup (PyDict.keys d) -> NoDup (PyDict.keys (PyDict.set d k v)).
Proof.
  intros Hd. destruct (PyDict.get d k) as [v0|] eqn:Hk.
  - by rewrite (set_present _ _ _ _ Hk).
  - rewrite (set_absent _ _ _ Hk). unfold PyDict.keys in *.
    rewrite map_app. simpl. apply NoDup_app. split; [done|].
    split; [|apply NoDup_singleton].
    intros x Hx ->%list_elem_of_singleton.
    by apply get_None_keys in Hk.
Qed.

Lemma set_length_absent d k v :
  PyDict.get d k = None -> PyDict.len (PyDict.set d k v) = S (PyDict.len d).
Proof.
  intros Hk. rewrite (set_absent _ _ _ Hk). unfold PyDict.len.
  rewrite length_app. simpl. lia.
Qed.
End Facts.
End PyDictFacts.

(** ** What each handler computes *)

Lemma get_user_from_token_eq token s :
  get_user_from_token token s =
  match PyDict.get (MOCK_TOKENS s) token with
  | None => (HTTPException 401 "Invalid token", s)
  | Some e =>
      if PyStr.truthy e
      then match MOCK_USERS s !! e with
           | Some u => (Ok u, s)
           | None => (HTTPException 401 "User not found", s)
           end
      else (HTTPException 401 "Invalid token", s)
  end.
Proof.
  unfold get_user_from_token. unfold_handler.
  destruct (PyDict.get (MOCK_TOKENS s) token) as [e|]; simpl; [|done].
  destruct (PyStr.truthy e); simpl; [|done].
  by destruct (MOCK_USERS s !! e).
Qed.

Lemma get_user_from_token_store token s : (get_user_from_token token s).2 = s.
Proof.
  rewrite get_user_from_token_eq.
  repeat case_match; done.
Qed.

Lemma current_user_store authorization s : (current_user authorization s).2 = s.
Proof.
  unfold current_user. destruct (negb _); [done|].
  apply get_user_from_token_store.
Qed.

(** A caller is authenticated only as a record of the user table. *)
Lemma get_user_from_token_Ok token s u s' :
  get_user_from_token token s = (Ok u, s') ->
  s' = s /\ exists e, PyDict.get (MOCK_TOKENS s) token = Some e /\ MOCK_USERS s !! e = Some u.
Proof.
  rewrite get_user_from_token_eq.
  destruct (PyDict.get (MOCK_TOKENS s) token) as [e|]; [|done].
  destruct (PyStr.truthy e); [|done].
  destruct (MOCK_USERS s !! e) as [u'|] eqn:Hu; [|done].
  intros [= -> ->]. eauto.
Qed.

Lemma current_user_Ok authorization s u s' :
  current_user authorization s = (Ok u, s') ->
  s' = s /\ exists e, MOCK_USERS s !! e = Some u.
Proof.
  unfold current_user. destruct (negb _); [done|].
  intros (-> & e & _ & Hu)%get_user_from_token_Ok. eauto.
Qed.

Lemma signup_eq payload s :
  signup payload s =
  match MOCK_USERS s !! signup_email payload with
  | Some _ => (HTTPException 400 "Email already in use", s)
  | None =>
      (Ok {| auth_token := mint (new_user_id s);
             auth_name := signup_name payload;
             auth_email := signup_email payload;
             auth_userId := new_user_id s |},
       {| MOCK_USERS :=
            <[signup_email payload :=
                {| user_name := signup_name payload;
                   user_email := signup_email payload;
                   user_password := signup_password payload;
                   user_id := new_user_id s |}]> (MOCK_USERS s);
          MOCK_TOKENS :=
            PyDict.set (MOCK_TOKENS s) (mint (new_user_id s)) (signup_email payload);
          MOCK_EVENTS := MOCK_EVENTS s |})
  end.
Proof.
  unfold signup. unfold_handler.
  by destruct (MOCK_USERS s !! signup_email payload).
Qed.

Lemma login_eq payload s :
  login payload s =
  match MOCK_USERS s !! login_email payload with
  | None => (HTTPException 401 "Invalid email or password", s)
  | Some u =>
      if String.eqb (user_password u) (login_password payload)
      then
        (Ok {| auth_token := login_token s payload u;
               auth_name := user_name u;
               auth_email := user_email u;
               auth_userId := user_id u |},
         {| MOCK_USERS := MOCK_USERS s;
            MOCK_TOKENS :=
              PyDict.set (MOCK_TOKENS s) (login_token s payload u) (login_email payload);
            MOCK_EVENTS := MOCK_EVENTS s |})
      else (HTTPException 401 "Invalid email or password", s)
  end.
Proof.
  unfold login. unfold_handler.
  destruct (MOCK_USERS s !! login_email payload) as [u|]; [|done].
  by destruct (String.eqb (user_password u) (login_password payload)).
Qed.

Lemma create_event_eq payload user s :
  create_event payload user s =
  (Ok (new_event s payload user),
   {| MOCK_USERS := MOCK_USERS s;
      MOCK_TOKENS := MOCK_TOKENS s;
      MOCK_EVENTS := (MOCK_EVENTS s ++ [new_event s payload user])%list |}).
Proof. reflexivity. Qed.

Lemma list_events_eq user s :
  list_events user s = (Ok (filter (fun e => ev_ownerId e = user_id user) (MOCK_EVENTS s)), s).
Proof. reflexivity. Qed.

(** ** The store invariant *)

Lemma demo_id_not_numbered (k : nat) : "u_demo_1" <> "u_" +:+ pretty k.
Proof.
  change "u_demo_1" with ("u_" +:+ "demo_1").
  intros H%(inj (String.app "u_")).
  pose proof (PyStrFacts.pretty_nat_digits k) as Hd.
  rewrite <- H in Hd. discriminate.
Qed.

Lemma initial_store_inv : store_inv initial_store.
Proof.
  split; simpl.
  - intros e u [<- <-]%lookup_singleton_Some. done.
  - intros e u [<- <-]%lookup_singleton_Some. done.
  - intros e u [<- <-]%lookup_singleton_Some. by left.
  - intros e1 e2 u1 u2 [<- <-]%lookup_singleton_Some [<- <-]%lookup_singleton_Some. done.
  - apply NoDup_nil_2.
  - intros t e H. by apply elem_of_nil in H.
  - intros [|i] ev; simpl; [by intros [= <-]|done].
Qed.

Lemma existing_token_Some items email t :
  existing_token items email = Some t -> (t, email) ∈ items.
Proof.
  induction items as [|[t0 e0] items IH]; simpl; [done|].
  destruct (String.eqb_spec e0 email) as [->|He].
  - intros [= ->]. left.
  - intros H. right. by apply IH.
Qed.

Lemma existing_token_None items email t :
  existing_token items email = None -> (t, email) ∉ items.
Proof.
  induction items as [|[t0 e0] items IH]; simpl; [intros _; apply not_elem_of_nil|].
  destruct (String.eqb_spec e0 email) as [->|He]; [done|].
  intros H. apply not_elem_of_cons. split; [congruence|by apply IH].
Qed.

(** In a well-formed store the token [login] answers with is the one minted
    from the user's identifier, whether it was found or made. *)
Lemma login_token_mint s payload u :
  store_inv s -> MOCK_USERS s !! login_email payload = Some u ->
  login_token s payload u = mint (user_id u).
Proof.
  intros Hs Hu. unfold login_token.
  destruct (existing_token _ _) as [t|] eqn:Ht; [|done].
  apply existing_token_Some, (inv_tokens s Hs) in Ht as (u' & Hu' & ->).
  by simplify_eq.
Qed.

Lemma signup_inv payload s :
  store_inv s -> PyStr.truthy (signup_email payload) = true ->
  store_inv (signup payload s).2.
Proof.
  intros Hs Hv. rewrite signup_eq.
  destruct (MOCK_USERS s !! signup_email payload) as [?|] eqn:Hfresh; [done|].
  assert (Hsize : size (<[signup_email payload :=
            {| user_name := signup_name payload; user_email := signup_email payload;
               user_password := signup_password payload; user_id := new_user_id s |}]>
            (MOCK_USERS s)) = S (size (MOCK_USERS s)))
    by by apply map_size_insert_None.
  assert (Hnew : forall e u, MOCK_USERS s !! e = Some u -> user_id u <> new_user_id s).
  { intros e u Hu Heq. destruct (inv_user_ids s Hs e u Hu) as [Hd|(k & Hk & Hid)].
    - rewrite Hd in Heq. by apply demo_id_not_numbered in Heq.
    - rewrite Hid in Heq. unfold new_user_id in Heq.
      apply (inj (String.app "u_")), (inj pretty) in Heq. lia. }
  split; simpl.
  - intros e u [[<- <-]|[_ Hu]]%lookup_insert_Some; [done|].
    by apply (inv_email_key s Hs).
  - intros e u [[<- <-]|[_ Hu]]%lookup_insert_Some; [done|].
    by apply (inv_email_truthy s Hs e u).
  - rewrite Hsize. intros e u [[<- <-]|[_ Hu]]%lookup_insert_Some; simpl.
    + right. exists (size (MOCK_USERS s) + 1). split; [lia|done].
    + destruct (inv_user_ids s Hs e u Hu) as [?|(k & Hk & Hid)]; [by left|].
      right. exists k. split; [lia|done].
  - intros e1 e2 u1 u2 [[<- <-]|[? Hu1]]%lookup_insert_Some
      [[<- <-]|[? Hu2]]%lookup_insert_Some; simpl; intros Hid; [done| | |].
    + by destruct (Hnew _ _ Hu2).
    + by destruct (Hnew _ _ Hu1).
    + by apply (inv_user_ids_inj s Hs e1 e2 u1 u2).
  - apply PyDictFacts.set_NoDup, (inv_tokens_keys s Hs).
  - intros t e [[= -> ->]|Hte]%PyDictFacts.elem_of_set.
    + eexists. rewrite lookup_insert_eq. split; [done|done].
    + destruct (inv_tokens s Hs t e Hte) as (u & Hu & ->).
      exists u. split; [|done]. rewrite lookup_insert_ne; [done|congruence].
  - apply (inv_event_ids s Hs).
Qed.

Lemma login_inv payload s : store_inv s -> store_inv (login payload s).2.
Proof.
  intros Hs. rewrite login_eq.
  destruct (MOCK_USERS s !! login_email payload) as [u|] eqn:Hu; [|done].
  destruct (String.eqb _ _); [|done].
  rewrite (login_token_mint s payload u Hs Hu).
  destruct Hs as [H1 H2 H3 H4 H5 H6 H7]. split; simpl; try done.
  - by apply PyDictFacts.set_NoDup.
  - intros t e [[= -> ->]|Hte]%PyDictFacts.elem_of_set; eauto.
Qed.

Lemma create_event_inv payload user s :
  store_inv s -> store_inv (create_event payload user s).2.
Proof.
  intros [H1 H2 H3 H4 H5 H6 H7]. rewrite create_event_eq. split; simpl; try done.
  intros i ev [Hi|[Hi Hev]]%lookup_app_Some; [by apply H7|].
  destruct (i - length (MOCK_EVENTS s)) as [|j] eqn:Hj; simpl in Hev; [|done].
  injection Hev as <-. simpl. by replace i with (length (MOCK_EVENTS s)) by lia.
Qed.

(** ** Steps of the application *)

Lemma respond_store {A} (dump : A -> json) (h : Handler A) s :
  (respond dump h s).2 = (h s).2.
Proof. unfold respond. destruct (h s) as [[a|c d] s']; done. Qed.

Lemma route_create_event_eq authorization payload s :
  route_create_event authorization payload s =
  match current_user authorization s with
  | (Ok user, _) => create_event payload user s
  | (HTTPException c d, _) => (HTTPException c d, s)
  end.
Proof.
  unfold route_create_event. unfold mbind, Handler_bind.
  pose proof (current_user_store authorization s) as Hs.
  destruct (current_user authorization s) as [[user|c d] s']; simpl in Hs; by subst.
Qed.

Lemma route_list_events_eq authorization s :
  route_list_events authorization s =
  match current_user authorization s with
  | (Ok user, _) => list_events user s
  | (HTTPException c d, _) => (HTTPException c d, s)
  end.
Proof.
  unfold route_list_events. unfold mbind, Handler_bind.
  pose proof (current_user_store authorization s) as Hs.
  destruct (current_user authorization s) as [[user|c d] s']; simpl in Hs; by subst.
Qed.

Lemma route_me_eq authorization s :
  route_me authorization s =
  match current_user authorization s with
  | (Ok user, _) => (Ok (me user), s)
  | (HTTPException c d, _) => (HTTPException c d, s)
  end.
Proof.
  unfold route_me. unfold mbind, Handler_bind.
  pose proof (current_user_store authorization s) as Hs.
  destruct (current_user authorization s) as [[user|c d] s']; simpl in Hs; by subst.
Qed.

Lemma handle_store req s :
  (handle req s).2 =
  match req with
  | PostSignup payload => (signup payload s).2
  | PostLogin payload => (login payload s).2
  | PostEvents authorization payload => (route_create_event authorization payload s).2
  | _ => s
  end.
Proof.
  destruct req; unfold handle; rewrite respond_store; try done.
  - rewrite route_me_eq. by destruct (current_user _ _) as [[?|??] ?].
  - rewrite route_list_events_eq. by destruct (current_user _ _) as [[?|??] ?].
Qed.

Lemma route_create_event_inv authorization payload s :
  store_inv s -> store_inv (route_create_event authorization payload s).2.
Proof.
  intros Hs. rewrite route_create_event_eq.
  destruct (current_user _ _) as [[user|??] ?]; [|done].
  by apply create_event_inv.
Qed.

(** Records of the user table stay as they are. *)
Lemma handle_users_mono req s e u :
  MOCK_USERS s !! e = Some u -> MOCK_USERS (handle req s).2 !! e = Some u.
Proof.
  intros Hu. rewrite handle_store. destruct req; try done.
  - rewrite signup_eq.
    destruct (MOCK_USERS s !! signup_email payload) eqn:Hp; [done|]. simpl.
    rewrite lookup_insert_ne; [done|congruence].
  - rewrite login_eq. by repeat case_match.
  - rewrite route_create_event_eq. by destruct (current_user _ _) as [[?|??] ?].
Qed.

(** The event list only grows at its end. *)
Lemma handle_events_mono req s : MOCK_EVENTS s `prefix_of` MOCK_EVENTS (handle req s).2.
Proof.
  rewrite handle_store. destruct req; try done.
  - rewrite signup_eq. by repeat case_match.
  - rewrite login_eq. by repeat case_match.
  - rewrite route_create_event_eq. destruct (current_user _ _) as [[?|??] ?]; [|done].
    rewrite create_event_eq. simpl. by apply prefix_app_r.
Qed.

(** A token of a well-formed store keeps its address. *)
Lemma handle_tokens_mono req s t e :
  store_inv s ->
  PyDict.get (MOCK_TOKENS s) t = Some e ->
  PyDict.get (MOCK_TOKENS (handle req s).2) t = Some e.
Proof.
  intros Hs Ht. rewrite handle_store. destruct req; try done.
  - rewrite signup_eq.
    destruct (MOCK_USERS s !! signup_email payload) eqn:Hp; [done|]. simpl.
    rewrite PyDictFacts.get_set_ne; [done|]. intros <-.
    apply PyDictFacts.get_Some_elem, (inv_tokens s Hs) in Ht as (u & Hu & Heq).
    apply (inj (String.app "mocktoken_")) in Heq.
    destruct (inv_user_ids s Hs e u Hu) as [Hd|(k & Hk & Hid)].
    + rewrite Hd in Heq. symmetry in Heq. by apply demo_id_not_numbered in Heq.
    + rewrite Hid in Heq. unfold new_user_id in Heq.
      apply (inj (String.app "u_")), (inj pretty) in Heq. lia.
  - rewrite login_eq.
    destruct (MOCK_USERS s !! login_email payload) as [u|] eqn:Hu; [|done].
    destruct (String.eqb _ _); [|done]. simpl.
    rewrite (login_token_mint s payload u Hs Hu).
    destruct (decide (mint (user_id u) = t)) as [<-|Hne].
    + rewrite PyDictFacts.get_set_eq. f_equal.
      apply PyDictFacts.get_Some_elem, (inv_tokens s Hs) in Ht as (u' & Hu' & Heq).
      apply (inj (String.app "mocktoken_")) in Heq.
      by apply (inv_user_ids_inj s Hs _ _ _ _ Hu Hu').
    + by rewrite PyDictFacts.get_set_ne.
  - rewrite route_create_event_eq. by destruct (current_user _ _) as [[?|??] ?].
Qed.

Section ReachabilityFacts.

Variable valid_email : string -> bool.
Hypothesis valid_email_nonempty : valid_email "" = false.

Lemma valid_email_truthy e : valid_email e = true -> PyStr.truthy e = true.
Proof. destruct e; [by rewrite valid_email_nonempty|done]. Qed.

Lemma handle_inv req s :
  store_inv s -> valid_request valid_email req = true -> store_inv (handle req s).2.
Proof.
  intros Hs Hv. rewrite handle_store. destruct req; try done.
  - apply signup_inv; [done|]. by apply valid_email_truthy.
  - by apply login_inv.
  - by apply route_create_event_inv.
Qed.

Lemma reachable_inv s : reachable valid_email s -> store_inv s.
Proof.
  induction 1 as [|s req _ IH Hv]; [apply initial_store_inv|by apply handle_inv].
Qed.

Lemma reachable_run reqs s :
  reachable valid_email s -> forallb (valid_request valid_email) reqs = true ->
  reachable valid_email (run reqs s).
Proof.
  revert s. induction reqs as [|req reqs IH]; intros s Hs; simpl; [done|].
  intros [Hv Hrest]%andb_true_iff. apply IH; [|done]. by constructor.
Qed.

End ReachabilityFacts.

(** ** The sample stores are reachable *)

Lemma demo_store_reachable : reachable has_at demo_store.
Proof. exact (reachable_handle has_at _ demo_login (reachable_initial has_at) eq_refl). Defined.

Lemma alice_store_reachable : reachable has_at alice_store.
Proof.
  exact (reachable_handle has_at _ demo_login
           (reachable_handle has_at _ alice_signup (reachable_initial has_at) eq_refl)
           eq_refl).
Defined.

(** Every payload is built from some choice of fields. *)
Lemma EventCreate_init_all payload :
  exists f, EventCreate_init (ec_name payload) (ec_date payload) f = payload.
Proof.
  exists {| given_budget := Some (ec_budget payload);
            given_participants := Some (ec_participants payload);
            given_event_type := Some (ec_event_type payload);
            given_allow_wishlists := Some (ec_allow_wishlists payload);
            given_collect_addresses := Some (ec_collect_addresses payload);
            given_custom_message := Some (ec_custom_message payload);
            extra := [] |}.
  by destruct payload.
Qed.

(** * The claims *)

(** C1.  For an authenticated caller, creating an event from any request
    (whatever fields it carries, declared or not) succeeds, appends the event
    and returns it with status ["draft"] and the caller's identifier as
    owner; when the optional fields are left out, the event has no
    participants, type ["Secret Santa"], wishlists allowed and addresses not
    collected. *)
Theorem create_event_status_owner_defaults authorization s user name date f :
  current_user authorization s = (Ok user, s) ->
  exists ev,
    route_create_event authorization (EventCreate_init name date f) s
      = (Ok ev, set_events (fun l => (l ++ [ev])%list) s)
    /\ ev_status ev = "draft"
    /\ ev_ownerId ev = user_id user
    /\ (given_participants f = None -> ev_participants ev = [])
    /\ (given_event_type f = None -> ev_event_type ev = Some "Secret Santa")
    /\ (given_allow_wishlists f = None -> ev_allow_wishlists ev = Some true)
    /\ (given_collect_addresses f = None -> ev_collect_addresses ev = Some false).
Proof.
  intros Hu. rewrite route_create_event_eq, Hu, create_event_eq.
  eexists. split; [reflexivity|]. simpl.
  repeat split; by intros ->.
Qed.

Lemma create_event_status_owner_defaults_witness :
  exists ev,
    route_create_event (Some "Bearer mocktoken_u_demo_1")
      (EventCreate_init "Trip" "2025-01-01" no_fields) demo_store
      = (Ok ev, set_events (fun l => (l ++ [ev])%list) demo_store)
    /\ ev_status ev = "draft"
    /\ ev_ownerId ev = user_id demo_user
    /\ (given_participants no_fields = None -> ev_participants ev = [])
    /\ (given_event_type no_fields = None -> ev_event_type ev = Some "Secret Santa")
    /\ (given_allow_wishlists no_fields = None -> ev_allow_wishlists ev = Some true)
    /\ (given_collect_addresses no_fields = None -> ev_collect_addresses ev = Some false).
Proof.
  apply (create_event_status_owner_defaults
           (Some "Bearer mocktoken_u_demo_1") demo_store demo_user
           "Trip" "2025-01-01" no_fields).
  vm_compute. reflexivity.
Defined.

(** Two records of a well-formed user table with one identifier are one
    record. *)
Lemma store_inv_same_id s eA eB A B :
  store_inv s -> MOCK_USERS s !! eA = Some A -> MOCK_USERS s !! eB = Some B ->
  user_id A = user_id B -> A = B.
Proof.
  intros Hs HA HB Hid.
  pose proof (inv_user_ids_inj s Hs eA eB A B HA HB Hid) as ->.
  congruence.
Qed.

(** C2.  For an authenticated caller [A], the listing is the stored events
    owned by [A], in their stored order: it is the filter of the event list
    on the owner, a sublist of it, and holds an event exactly when the event
    is stored with owner [A].  In a reachable store no event of the listing
    is owned by another user [B] of the user table. *)
Theorem list_events_owned_only (valid_email : string -> bool) authorization s A :
  valid_email "" = false ->
  current_user authorization s = (Ok A, s) ->
  exists owned,
    route_list_events authorization s = (Ok owned, s)
    /\ owned = filter (fun e => ev_ownerId e = user_id A) (MOCK_EVENTS s)
    /\ owned `sublist_of` MOCK_EVENTS s
    /\ (forall ev, ev ∈ owned <-> ev ∈ MOCK_EVENTS s /\ ev_ownerId ev = user_id A)
    /\ (reachable valid_email s ->
        forall eB B, MOCK_USERS s !! eB = Some B -> B <> A ->
        forall ev, ev ∈ owned -> ev_ownerId ev <> user_id B).
Proof.
  intros Hvalid Hu. rewrite route_list_events_eq, Hu, list_events_eq.
  eexists. split; [reflexivity|]. split; [reflexivity|].
  split; [apply sublist_filter|].
  split; [intros ev; rewrite list_elem_of_filter; tauto|].
  intros Hs eB B HB Hne ev [Hown _]%list_elem_of_filter Heq.
  apply (reachable_inv valid_email Hvalid) in Hs.
  apply current_user_Ok in Hu as (_ & eA & HA).
  apply Hne. apply (store_inv_same_id s eB eA B A Hs HB HA). congruence.
Qed.

Lemma list_events_owned_only_witness :
  exists owned,
    route_list_events (Some "Bearer mocktoken_u_demo_1") alice_store = (Ok owned, alice_store)
    /\ owned = filter (fun e => ev_ownerId e = user_id demo_user) (MOCK_EVENTS alice_store)
    /\ owned `sublist_of` MOCK_EVENTS alice_store
    /\ (forall ev, ev ∈ owned <->
          ev ∈ MOCK_EVENTS alice_store /\ ev_ownerId ev = user_id demo_user)
    /\ (reachable has_at alice_store ->
        forall eB B, MOCK_USERS alice_store !! eB = Some B -> B <> demo_user ->
        forall ev, ev ∈ owned -> ev_ownerId ev <> user_id B).
Proof.
  apply (list_events_owned_only has_at (Some "Bearer mocktoken_u_demo_1")
           alice_store demo_user).
  - reflexivity.
  - vm_compute. reflexivity.
Defined.

(** In a well-formed store the token of the next user is not yet a key of
    the token table. *)
Lemma new_token_fresh s :
  store_inv s -> PyDict.get (MOCK_TOKENS s) (mint (new_user_id s)) = None.
Proof.
  intros Hs. destruct (PyDict.get _ _) as [e|] eqn:Ht; [|done].
  apply PyDictFacts.get_Some_elem, (inv_tokens s Hs) in Ht as (u & Hu & Heq).
  apply (inj (String.app "mocktoken_")) in Heq.
  destruct (inv_user_ids s Hs e u Hu) as [Hd|(k & Hk & Hid)].
  - rewrite Hd in Heq. symmetry in Heq. by apply demo_id_not_numbered in Heq.
  - rewrite Hid in Heq. unfold new_user_id in Heq.
    apply (inj (String.app "u_")), (inj pretty) in Heq. lia.
Qed.

(** C3.  In every store, signing up with an address that is a key of the
    user table fails with status 400 and changes nothing.  Otherwise it
    succeeds: the new identifier is [u_<n>] with [n] the number of users plus
    one, the record (with the password as given) is stored under the address,
    the token is [mocktoken_<userId>] and maps to the address, the bundle of
    token, name, address and identifier is returned, the user table has one
    entry more, the events are untouched, and a second signup with the same
    address is refused.  In a reachable store the token is a new key, put
    last, and the token table has one entry more. *)
Theorem signup_conflict_or_registers s payload :
  (is_Some (MOCK_USERS s !! signup_email payload) ->
     signup payload s = (HTTPException 400 "Email already in use", s))
  /\ (MOCK_USERS s !! signup_email payload = None ->
      exists user_id token s',
        user_id = "u_" +:+ pretty (size (MOCK_USERS s) + 1)
        /\ token = "mocktoken_" +:+ user_id
        /\ signup payload s =
             (Ok {| auth_token := token;
                    auth_name := signup_name payload;
                    auth_email := signup_email payload;
                    auth_userId := user_id |}, s')
        /\ MOCK_USERS s' =
             <[signup_email payload :=
                 {| user_name := signup_name payload;
                    user_email := signup_email payload;
                    user_password := signup_password payload;
                    user_id := user_id |}]> (MOCK_USERS s)
        /\ MOCK_TOKENS s' = PyDict.set (MOCK_TOKENS s) token (signup_email payload)
        /\ PyDict.get (MOCK_TOKENS s') token = Some (signup_email payload)
        /\ size (MOCK_USERS s') = S (size (MOCK_USERS s))
        /\ MOCK_EVENTS s' = MOCK_EVENTS s
        /\ (forall again, signup_email again = signup_email payload ->
             signup again s' = (HTTPException 400 "Email already in use", s'))
        /\ (forall valid_email : string -> bool,
             valid_email "" = false -> reachable valid_email s ->
             MOCK_TOKENS s' = (MOCK_TOKENS s ++ [(token, signup_email payload)])%list
             /\ PyDict.len (MOCK_TOKENS s') = S (PyDict.len (MOCK_TOKENS s)))).
Proof.
  split.
  - intros [u Hu]. by rewrite signup_eq, Hu.
  - intros Hfresh. rewrite signup_eq, Hfresh.
    eexists _, _, _. split; [reflexivity|]. split; [reflexivity|].
    split; [reflexivity|]. simpl.
    split; [reflexivity|].
    split; [reflexivity|].
    split; [apply PyDictFacts.get_set_eq|].
    split; [by apply map_size_insert_None|].
    split; [reflexivity|].
    split.
    + intros again Heq. rewrite signup_eq. simpl.
      by rewrite Heq, lookup_insert_eq.
    + intros valid_email Hvalid Hs%(reachable_inv valid_email Hvalid).
      pose proof (new_token_fresh s Hs) as Htok.
      split; [by apply PyDictFacts.set_absent|by apply PyDictFacts.set_length_absent].
Qed.

(** The scenario of the specification, run from the seeded tables: signup,
    login, an empty listing, then a first event. *)
Example signup_scenario :
  let s1 := (handle alice_signup initial_store).2 in
  let T1 := Some "Bearer mocktoken_u_2" in
  (handle alice_signup initial_store).1
  = {| status_code := 200;
       body := JObj [("token", JStr "mocktoken_u_2"); ("name", JStr "A");
                     ("email", JStr "a@x.com"); ("userId", JStr "u_2")] |}
  /\ size (MOCK_USERS s1) = 2
  /\ PyDict.len (MOCK_TOKENS s1) = 1
  /\ (login (mkLoginRequest "a@x.com" "p") s1).1
     = Ok (mkAuthResponse "mocktoken_u_2" "A" "a@x.com" "u_2")
  /\ (login (mkLoginRequest "a@x.com" "p") s1).2 = s1
  /\ (handle (GetEvents T1) s1).1 = {| status_code := 200; body := JArr [] |}
  /\ (route_create_event T1 (EventCreate_init "Trip" "2025-01-01" no_fields) s1).1
     = Ok {| ev_id := "evt_2"; ev_name := "Trip"; ev_date := "2025-01-01";
             ev_budget := None; ev_participants := []; ev_ownerId := "u_2";
             ev_status := "draft"; ev_event_type := Some "Secret Santa";
             ev_allow_wishlists := Some true; ev_collect_addresses := Some false;
             ev_custom_message := None |}.
Proof. vm_compute. done. Qed.

(** ** Sequences of requests *)

Lemma run_users_mono reqs s e u :
  MOCK_USERS s !! e = Some u -> MOCK_USERS (run reqs s) !! e = Some u.
Proof.
  revert s. induction reqs as [|req reqs IH]; intros s Hu; simpl; [done|].
  by apply IH, handle_users_mono.
Qed.

Lemma run_events_mono reqs s : MOCK_EVENTS s `prefix_of` MOCK_EVENTS (run reqs s).
Proof.
  revert s. induction reqs as [|req reqs IH]; intros s; simpl; [done|].
  etrans; [apply (handle_events_mono req)|apply IH].
Qed.

Section Runs.

Variable valid_email : string -> bool.
Hypothesis valid_email_nonempty : valid_email "" = false.

Lemma run_inv reqs s :
  store_inv s -> forallb (valid_request valid_email) reqs = true ->
  store_inv (run reqs s).
Proof.
  revert s. induction reqs as [|req reqs IH]; intros s Hs; simpl; [done|].
  intros [Hv Hrest]%andb_true_iff. apply IH; [|done].
  by apply (handle_inv valid_email).
Qed.

Lemma run_tokens_mono reqs s t e :
  store_inv s -> forallb (valid_request valid_email) reqs = true ->
  PyDict.get (MOCK_TOKENS s) t = Some e ->
  PyDict.get (MOCK_TOKENS (run reqs s)) t = Some e.
Proof.
  revert s. induction reqs as [|req reqs IH]; intros s Hs; simpl; [done|].
  intros [Hv Hrest]%andb_true_iff Ht. apply IH; [|done|].
  - by apply (handle_inv valid_email).
  - by apply handle_tokens_mono.
Qed.

End Runs.

(** After [d[k] = e] the loop of [login] for [e] stops at [k] or where it
    stopped before. *)
Lemma existing_token_set d k e :
  existing_token (PyDict.set d k e) e = Some k
  \/ existing_token (PyDict.set d k e) e = existing_token d e.
Proof.
  induction d as [|[k0 v0] d IH]; simpl.
  - left. by rewrite String.eqb_refl.
  - destruct (String.eqb_spec k0 k) as [->|Hk]; simpl.
    + left. by rewrite String.eqb_refl.
    + destruct (String.eqb v0 e); [by right|done].
Qed.

Lemma login_token_truthy s payload u : PyStr.truthy (login_token s payload u) = true.
Proof.
  unfold login_token, PyStr.or_else.
  destruct (existing_token _ _) as [t|]; [|done].
  by destruct (PyStr.truthy t) eqn:Ht.
Qed.

(** Logging in where a login has just written its token finds that token
    again. *)
Lemma login_token_after_login s payload u :
  login_token
    {| MOCK_USERS := MOCK_USERS s;
       MOCK_TOKENS := PyDict.set (MOCK_TOKENS s) (login_token s payload u)
                        (login_email payload);
       MOCK_EVENTS := MOCK_EVENTS s |} payload u
  = login_token s payload u.
Proof.
  pose proof (login_token_truthy s payload u) as Htruthy.
  unfold login_token at 1. simpl.
  destruct (existing_token_set (MOCK_TOKENS s) (login_token s payload u)
              (login_email payload)) as [->| ->].
  - unfold PyStr.or_else. by rewrite Htruthy.
  - done.
Qed.




(** With two tokens seeded for one address the first one is returned, at the
    first login and at the next, and the table is left as it was seeded. *)
Example login_reuses_first_seeded_token :
  login (mkLoginRequest "demo@giftflow.app" "demo123") seeded_store
  = (Ok (mkAuthResponse "zzz" "Demo User" "demo@giftflow.app" "u_demo_1"), seeded_store).
Proof. vm_compute. reflexivity. Qed.

(** C5.  In every store, login raises exactly when the address is not a key
    of the user table or the stored password differs from the given one as a
    string; what it raises is status 401, and the three tables are then as
    before. *)
Theorem login_unauthorized_iff payload s :
  ((exists c d, (login payload s).1 = HTTPException c d) <->
     (MOCK_USERS s !! login_email payload = None
      \/ exists u, MOCK_USERS s !! login_email payload = Some u
                   /\ user_password u <> login_password payload))
  /\ (forall c d, (login payload s).1 = HTTPException c d ->
        c = 401 /\ d = "Invalid email or password" /\ (login payload s).2 = s).
Proof.
  rewrite login_eq.
  destruct (MOCK_USERS s !! login_email payload) as [u|] eqn:Hu.
  - destruct (String.eqb_spec (user_password u) (login_password payload)) as [Hpw|Hpw];
      simpl.
    + split; [|done]. split.
      * by intros (c & d & ?).
      * intros [?|(u' & [= <-] & ?)]; done.
    + split; [|by intros c d [= <- <-]]. split; [|by eauto].
      intros _. right. by exists u.
  - simpl. split; [|by intros c d [= <- <-]]. split; [by left|by eauto].
Qed.

(** ** Bearer headers *)

(** Where stripping a prefix and replacing every occurrence agree: the token
    has no capital B. *)
Lemma replace_removeprefix_agree t :
  PyStr.lacks "B" t = true ->
  PyStr.replace ("Bearer " +:+ t) "Bearer " "" = PyStr.removeprefix ("Bearer " +:+ t) "Bearer "
  /\ PyStr.replace t "Bearer " "" = PyStr.removeprefix t "Bearer ".
Proof.
  intros Ht. split.
  - rewrite PyStrFacts.replace_Bearer_prefix by done.
    unfold PyStr.removeprefix. by cbn.
  - unfold PyStr.replace. rewrite (PyStrFacts.replace_scan_lacks "B") by done.
    destruct t as [|a t]; [done|]. simpl in Ht.
    apply andb_true_iff in Ht as [Ha _]. apply negb_true_iff in Ha.
    unfold PyStr.removeprefix. cbn [PyStr.removeprefix_go].
    rewrite Ascii.eqb_sym in Ha. by rewrite Ha.
Qed.

(** C6.  A request without the header is refused with status 401 before any
    table is read.  A header with [Bearer ] inside it is not left as it is:
    every occurrence is removed, so the header [mocktoBearer ken_u_2], which
    does not start with [Bearer ] and is no token of the table, is resolved
    as the token [mocktoken_u_2] and authenticates its user, where the header
    taken as it stands resolves to nothing. *)
Theorem current_user_removes_inner_Bearer :
  (forall s, current_user None s
             = (HTTPException 401 "Missing Authorization header", s))
  /\ PyStr.removeprefix "mocktoBearer ken_u_2" "Bearer " = "mocktoBearer ken_u_2"
  /\ PyStr.replace "mocktoBearer ken_u_2" "Bearer " "" = "mocktoken_u_2"
  /\ PyStr.removeprefix "Bearer Bearer mocktoken_u_2" "Bearer " = "Bearer mocktoken_u_2"
  /\ PyStr.replace "Bearer Bearer mocktoken_u_2" "Bearer " "" = "mocktoken_u_2"
  /\ current_user (Some "mocktoBearer ken_u_2") alice_store = (Ok alice, alice_store)
  /\ get_user_from_token (PyStr.removeprefix "mocktoBearer ken_u_2" "Bearer ") alice_store
     = (HTTPException 401 "Invalid token", alice_store).
Proof.
  split; [done|]. vm_compute. done.
Qed.

(** ** Tokens and the users they were issued to *)

Lemma signup_issued payload s r s' :
  signup payload s = (Ok r, s') ->
  exists A, issued s' r A.
Proof.
  rewrite signup_eq.
  destruct (MOCK_USERS s !! signup_email payload) eqn:Hfresh; [done|].
  intros [= <- <-]. eexists. unfold issued. simpl.
  rewrite lookup_insert_eq, PyDictFacts.get_set_eq. done.
Qed.

Lemma login_issued payload s r s' :
  store_inv s -> login payload s = (Ok r, s') -> exists A, issued s' r A.
Proof.
  intros Hs. rewrite login_eq.
  destruct (MOCK_USERS s !! login_email payload) as [u|] eqn:Hu; [|done].
  destruct (String.eqb _ _); [|done].
  intros [= <- <-]. exists u. unfold issued. simpl.
  rewrite (inv_email_key s Hs _ _ Hu), PyDictFacts.get_set_eq.
  by rewrite (login_token_mint s payload u Hs Hu).
Qed.

Lemma mint_lacks_B s e u :
  store_inv s -> MOCK_USERS s !! e = Some u -> PyStr.lacks "B" (mint (user_id u)) = true.
Proof.
  intros Hs Hu. unfold mint.
  destruct (inv_user_ids s Hs e u Hu) as [->|(k & _ & ->)]; [done|].
  rewrite !PyStrFacts.lacks_app, PyStrFacts.pretty_nat_lacks; done.
Qed.

Lemma current_user_Some h s :
  PyStr.truthy h = true ->
  current_user (Some h) s = get_user_from_token (PyStr.replace h "Bearer " "") s.
Proof. intros Hh. unfold current_user. simpl. by rewrite Hh. Qed.

(** What a token issued to a record of a well-formed store resolves to. *)
Lemma issued_resolves s r A :
  store_inv s -> issued s r A ->
  get_user_from_token (auth_token r) s = (Ok A, s)
  /\ current_user (Some ("Bearer " +:+ auth_token r)) s = (Ok A, s)
  /\ current_user (Some (auth_token r)) s = (Ok A, s).
Proof.
  intros Hs (HA & _ & _ & _ & Ht & Hm).
  assert (Hres : get_user_from_token (auth_token r) s = (Ok A, s)).
  { rewrite get_user_from_token_eq, Ht, (inv_email_truthy s Hs _ _ HA). by rewrite HA. }
  pose proof (mint_lacks_B s _ A Hs HA) as HB. rewrite <- Hm in HB.
  split; [done|]. split.
  - rewrite current_user_Some by done.
    by rewrite PyStrFacts.replace_Bearer_prefix.
  - rewrite current_user_Some by by rewrite Hm.
    unfold PyStr.replace. by rewrite (PyStrFacts.replace_scan_lacks "B").
Qed.

Lemma run_issued (valid_email : string -> bool) reqs s r A :
  valid_email "" = false -> store_inv s ->
  forallb (valid_request valid_email) reqs = true ->
  issued s r A -> issued (run reqs s) r A.
Proof.
  intros Hvalid Hs Hreqs (HA & Hn & He & Hi & Ht & Hm).
  repeat split; try done.
  - by apply run_users_mono.
  - by apply (run_tokens_mono valid_email Hvalid).
Qed.

(** C7.  Take a reachable store and a signup or login that succeeds in it
    with the bundle [r].  After any further requests, the token of [r]
    resolves, through the token table and then the user table, to the record
    stored under the address of [r], whose name, address and identifier are
    those of [r]; nothing else is what it resolves to; and [/api/me] with the
    header [Bearer <token>] answers with exactly that name, address and
    identifier.  In every store, a token that is no key of the token table,
    or whose address is no key of the user table, is refused with status
    401. *)
Theorem token_resolves_to_its_user (valid_email : string -> bool) s1 r s2 :
  valid_email "" = false ->
  reachable valid_email s1 ->
  ((exists payload, valid_email (signup_email payload) = true
                    /\ signup payload s1 = (Ok r, s2))
   \/ (exists payload, login payload s1 = (Ok r, s2))) ->
  (forall reqs, forallb (valid_request valid_email) reqs = true ->
     exists A,
       MOCK_USERS (run reqs s2) !! auth_email r = Some A
       /\ user_name A = auth_name r
       /\ user_email A = auth_email r
       /\ user_id A = auth_userId r
       /\ PyDict.get (MOCK_TOKENS (run reqs s2)) (auth_token r) = Some (auth_email r)
       /\ get_user_from_token (auth_token r) (run reqs s2) = (Ok A, run reqs s2)
       /\ (forall B s', get_user_from_token (auth_token r) (run reqs s2) = (Ok B, s') ->
             B = A)
       /\ route_me (Some ("Bearer " +:+ auth_token r)) (run reqs s2)
          = (Ok (JObj [("name", JStr (auth_name r));
                       ("email", JStr (auth_email r));
                       ("userId", JStr (auth_userId r))]), run reqs s2))
  /\ (forall s token, PyDict.get (MOCK_TOKENS s) token = None ->
        get_user_from_token token s = (HTTPException 401 "Invalid token", s))
  /\ (forall s token e, PyDict.get (MOCK_TOKENS s) token = Some e ->
        MOCK_USERS s !! e = None ->
        exists d, get_user_from_token token s = (HTTPException 401 d, s)).
Proof.
  intros Hvalid Hs1%(reachable_inv valid_email Hvalid) Hminted.
  split; [|split].
  - assert (store_inv s2 /\ exists A, issued s2 r A) as [Hs2 [A HA]].
    { destruct Hminted as [(payload & Hv & Hr)|(payload & Hr)].
      - split; [|by eapply signup_issued].
        pose proof (signup_inv payload s1 Hs1
                      (valid_email_truthy valid_email Hvalid _ Hv)) as Hinv.
        by rewrite Hr in Hinv.
      - split; [|by eapply login_issued].
        pose proof (login_inv payload s1 Hs1) as Hinv. by rewrite Hr in Hinv. }
    intros reqs Hreqs.
    pose proof (run_inv valid_email Hvalid reqs s2 Hs2 Hreqs) as Hs3.
    pose proof (run_issued valid_email reqs s2 r A Hvalid Hs2 Hreqs HA) as HA3.
    destruct (issued_resolves _ r A Hs3 HA3) as (Hres & Hcur & _).
    destruct HA3 as (HU & Hn & He & Hi & Ht & Hm).
    exists A. repeat split; try done.
    + intros B s'. rewrite Hres. by intros [= <- _].
    + rewrite route_me_eq, Hcur. unfold me. by rewrite Hn, He, Hi.
  - intros s token Ht. by rewrite get_user_from_token_eq, Ht.
  - intros s token e Ht He. rewrite get_user_from_token_eq, Ht, He.
    destruct (PyStr.truthy e); eauto.
Qed.

Lemma token_resolves_to_its_user_witness :
  (forall reqs, forallb (valid_request has_at) reqs = true ->
     exists A,
       MOCK_USERS (run reqs (handle alice_signup initial_store).2) !! "a@x.com" = Some A
       /\ user_name A = "A"
       /\ user_email A = "a@x.com"
       /\ user_id A = "u_2"
       /\ PyDict.get (MOCK_TOKENS (run reqs (handle alice_signup initial_store).2))
            "mocktoken_u_2" = Some "a@x.com"
       /\ get_user_from_token "mocktoken_u_2" (run reqs (handle alice_signup initial_store).2)
          = (Ok A, run reqs (handle alice_signup initial_store).2)
       /\ (forall B s',
             get_user_from_token "mocktoken_u_2"
               (run reqs (handle alice_signup initial_store).2) = (Ok B, s') -> B = A)
       /\ route_me (Some ("Bearer " +:+ "mocktoken_u_2"))
            (run reqs (handle alice_signup initial_store).2)
          = (Ok (JObj [("name", JStr "A"); ("email", JStr "a@x.com");
                       ("userId", JStr "u_2")]),
             run reqs (handle alice_signup initial_store).2))
  /\ (forall s token, PyDict.get (MOCK_TOKENS s) token = None ->
        get_user_from_token token s = (HTTPException 401 "Invalid token", s))
  /\ (forall s token e, PyDict.get (MOCK_TOKENS s) token = Some e ->
        MOCK_USERS s !! e = None ->
        exists d, get_user_from_token token s = (HTTPException 401 d, s)).
Proof.
  apply (token_resolves_to_its_user has_at initial_store
           (mkAuthResponse "mocktoken_u_2" "A" "a@x.com" "u_2")
           (handle alice_signup initial_store).2).
  - reflexivity.
  - apply reachable_initial.
  - left. exists (mkSignupRequest "A" "a@x.com" "p"). split; reflexivity.
Defined.

(** ** The invariants of the data model *)

Lemma store_inv_data_invariants s : store_inv s -> data_invariants s.
Proof.
  intros Hs. split.
  - apply (inv_email_key s Hs).
  - intros e1 e2 u1 u2 H1 H2 He.
    rewrite (inv_email_key s Hs _ _ H1), (inv_email_key s Hs _ _ H2) in He.
    subst e2. split; [done|congruence].
  - intros e1 e2 u1 u2 H1 H2 Hid.
    pose proof (inv_user_ids_inj s Hs _ _ _ _ H1 H2 Hid) as <-.
    split; [done|congruence].
  - apply (inv_tokens_keys s Hs).
  - apply NoDup_alt. intros i j x.
    rewrite !list_lookup_fmap_Some.
    intros (ei & -> & Hei) (ej & Hid & Hej).
    rewrite (inv_event_ids s Hs _ _ Hei), (inv_event_ids s Hs _ _ Hej) in Hid.
    apply (inj (String.app "evt_")), (inj pretty) in Hid. lia.
Qed.

(** C8.  In a reachable store, and in the store that any sequence of requests
    leads to from it, the addresses are unique keys of the user table, user
    and event identifiers are unique, and a token is a key of the token table
    once.  Across the requests every token keeps the address it maps to and
    every stored event stays, with its owner, where it is in the list. *)
Theorem handlers_preserve_invariants (valid_email : string -> bool) s reqs :
  valid_email "" = false ->
  reachable valid_email s ->
  forallb (valid_request valid_email) reqs = true ->
  data_invariants s
  /\ data_invariants (run reqs s)
  /\ (forall t e, PyDict.get (MOCK_TOKENS s) t = Some e ->
        PyDict.get (MOCK_TOKENS (run reqs s)) t = Some e)
  /\ (forall i ev, MOCK_EVENTS s !! i = Some ev ->
        MOCK_EVENTS (run reqs s) !! i = Some ev)
  /\ (forall i ev, MOCK_EVENTS s !! i = Some ev ->
        ev_ownerId <$> (MOCK_EVENTS (run reqs s) !! i) = Some (ev_ownerId ev))
  /\ (forall e u, MOCK_USERS s !! e = Some u -> MOCK_USERS (run reqs s) !! e = Some u).
Proof.
  intros Hvalid Hs%(reachable_inv valid_email Hvalid) Hreqs.
  pose proof (run_inv valid_email Hvalid reqs s Hs Hreqs) as Hs'.
  assert (Hev : forall i ev, MOCK_EVENTS s !! i = Some ev ->
                 MOCK_EVENTS (run reqs s) !! i = Some ev).
  { intros i ev Hi. eapply prefix_lookup_Some; [done|apply run_events_mono]. }
  split; [by apply store_inv_data_invariants|].
  split; [by apply store_inv_data_invariants|].
  split; [intros t e; by apply (run_tokens_mono valid_email Hvalid)|].
  split; [done|].
  split; [intros i ev Hi; by rewrite (Hev i ev Hi)|].
  intros e u. apply run_users_mono.
Qed.

Lemma handlers_preserve_invariants_witness :
  data_invariants initial_store
  /\ data_invariants (run [alice_signup; demo_login] initial_store)
  /\ (forall t e, PyDict.get (MOCK_TOKENS initial_store) t = Some e ->
        PyDict.get (MOCK_TOKENS (run [alice_signup; demo_login] initial_store)) t = Some e)
  /\ (forall i ev, MOCK_EVENTS initial_store !! i = Some ev ->
        MOCK_EVENTS (run [alice_signup; demo_login] initial_store) !! i = Some ev)
  /\ (forall i ev, MOCK_EVENTS initial_store !! i = Some ev ->
        ev_ownerId <$> (MOCK_EVENTS (run [alice_signup; demo_login] initial_store) !! i)
        = Some (ev_ownerId ev))
  /\ (forall e u, MOCK_USERS initial_store !! e = Some u ->
        MOCK_USERS (run [alice_signup; demo_login] initial_store) !! e = Some u).
Proof.
  apply (handlers_preserve_invariants has_at initial_store [alice_signup; demo_login]).
  - reflexivity.
  - apply reachable_initial.
  - reflexivity.
Defined.

(** ** Failure and commitment *)

Lemma current_user_raises authorization s c d s' :
  current_user authorization s = (HTTPException c d, s') -> c = 401 /\ s' = s.
Proof.
  unfold current_user. destruct (negb _); [by intros [= <- _ <-]|].
  rewrite get_user_from_token_eq. repeat case_match; by intros [= <- _ <-].
Qed.

(** A request is answered with 200, or with 400 or 401 and the store as it
    was. *)
Lemma handle_ok_or_unchanged req s :
  status_code (handle req s).1 = 200
  \/ ((handle req s).2 = s
      /\ (status_code (handle req s).1 = 400 \/ status_code (handle req s).1 = 401)).
Proof.
  destruct req; unfold handle, respond.
  - by left.
  - by left.
  - by left.
  - rewrite signup_eq. destruct (MOCK_USERS s !! _); [right|left]; simpl; auto.
  - rewrite login_eq. destruct (MOCK_USERS s !! _) as [u|]; [|right; simpl; auto].
    destruct (String.eqb _ _); [left|right]; simpl; auto.
  - rewrite route_me_eq.
    destruct (current_user authorization s) as [[u|c d] s'] eqn:Hu; [by left|].
    apply current_user_raises in Hu as [-> ->]. right. simpl. auto.
  - rewrite route_list_events_eq.
    destruct (current_user authorization s) as [[u|c d] s'] eqn:Hu; [by left|].
    apply current_user_raises in Hu as [-> ->]. right. simpl. auto.
  - rewrite route_create_event_eq.
    destruct (current_user authorization s) as [[u|c d] s'] eqn:Hu; [by left|].
    apply current_user_raises in Hu as [-> ->]. right. simpl. auto.
Qed.

(** A request leaves the user table as it is or files one record under an
    address that was not a key. *)
Lemma handle_users_cases req s :
  MOCK_USERS (handle req s).2 = MOCK_USERS s
  \/ exists payload,
       req = PostSignup payload
       /\ MOCK_USERS s !! signup_email payload = None
       /\ MOCK_USERS (handle req s).2
          = <[signup_email payload :=
                {| user_name := signup_name payload;
                   user_email := signup_email payload;
                   user_password := signup_password payload;
                   user_id := new_user_id s |}]> (MOCK_USERS s).
Proof.
  rewrite handle_store. destruct req; try by left.
  - rewrite signup_eq.
    destruct (MOCK_USERS s !! signup_email payload) eqn:Hp; [by left|].
    right. by exists payload.
  - left. rewrite login_eq. by repeat case_match.
  - left. rewrite route_create_event_eq.
    by destruct (current_user authorization s) as [[user|c d] s'].
Qed.

(** In a reachable store every record is filed under its own address, and
    the address passes the check of [EmailStr], the seeded one included. *)
Lemma reachable_addresses_valid (valid_email : string -> bool) s :
  valid_email "demo@giftflow.app" = true ->
  reachable valid_email s ->
  forall e u, MOCK_USERS s !! e = Some u ->
    user_email u = e /\ valid_email (user_email u) = true.
Proof.
  intros Hdemo. induction 1 as [|s req _ IH Hv]; intros e u.
  - simpl. intros [<- <-]%lookup_singleton_Some. done.
  - destruct (handle_users_cases req s) as [->|(payload & -> & Hfresh & ->)]; [apply IH|].
    intros [[<- <-]|[_ Hu]]%lookup_insert_Some; [done|by apply IH].
Qed.

(** C9.  In every reachable store: every stored address passes the check of
    [EmailStr], so the bundle that a signup or a login builds after its
    writes is a valid [AuthResponse] and building it cannot fail.  Every
    request is answered with status 200, or with status 400 or 401 and the
    user table, the token table and the event list exactly as they were.  A
    handler that raises leaves the store as it found it.  A signup that
    succeeds has stored the record and the token; a login that succeeds has
    stored the token; an event creation that succeeds has appended the
    event. *)
Theorem handlers_atomic (valid_email : string -> bool) s :
  valid_email "demo@giftflow.app" = true ->
  reachable valid_email s ->
  (forall e u, MOCK_USERS s !! e = Some u ->
     user_email u = e /\ valid_email (user_email u) = true)
  /\ (forall req,
        status_code (handle req s).1 = 200
        \/ ((handle req s).2 = s
            /\ (status_code (handle req s).1 = 400
                \/ status_code (handle req s).1 = 401)))
  /\ (forall payload c d s', signup payload s = (HTTPException c d, s') -> s' = s)
  /\ (forall payload c d s', login payload s = (HTTPException c d, s') -> s' = s)
  /\ (forall authorization payload c d s',
        route_create_event authorization payload s = (HTTPException c d, s') -> s' = s)
  /\ (forall payload r s',
        valid_email (signup_email payload) = true ->
        signup payload s = (Ok r, s') ->
        AuthResponse_validates valid_email r = true
        /\ MOCK_USERS s' !! signup_email payload
           = Some {| user_name := signup_name payload;
                     user_email := signup_email payload;
                     user_password := signup_password payload;
                     user_id := auth_userId r |}
        /\ PyDict.get (MOCK_TOKENS s') (auth_token r) = Some (signup_email payload)
        /\ MOCK_EVENTS s' = MOCK_EVENTS s)
  /\ (forall payload r s', login payload s = (Ok r, s') ->
        AuthResponse_validates valid_email r = true
        /\ PyDict.get (MOCK_TOKENS s') (auth_token r) = Some (login_email payload)
        /\ MOCK_USERS s' = MOCK_USERS s
        /\ MOCK_EVENTS s' = MOCK_EVENTS s)
  /\ (forall authorization payload ev s',
        route_create_event authorization payload s = (Ok ev, s') ->
        MOCK_EVENTS s' = (MOCK_EVENTS s ++ [ev])%list
        /\ MOCK_USERS s' = MOCK_USERS s
        /\ MOCK_TOKENS s' = MOCK_TOKENS s).
Proof.
  intros Hdemo Hreach.
  pose proof (reachable_addresses_valid valid_email s Hdemo Hreach) as Haddr.
  split; [done|].
  split; [intros req; apply handle_ok_or_unchanged|].
  split.
  { intros payload c d s'. rewrite signup_eq.
    destruct (MOCK_USERS s !! _); [by intros [= _ _ <-]|done]. }
  split.
  { intros payload c d s'. rewrite login_eq.
    repeat case_match; try done; by intros [= _ _ <-]. }
  split.
  { intros authorization payload c d s'. rewrite route_create_event_eq.
    destruct (current_user authorization s) as [[u|c' d'] s0] eqn:Hu.
    - by rewrite create_event_eq.
    - by intros [= _ _ <-]. }
  split.
  { intros payload r s' Hv. rewrite signup_eq.
    destruct (MOCK_USERS s !! _); [done|]. intros [= <- <-].
    unfold AuthResponse_validates. simpl.
    by rewrite lookup_insert_eq, PyDictFacts.get_set_eq. }
  split.
  { intros payload r s'. rewrite login_eq.
    destruct (MOCK_USERS s !! _) as [u|] eqn:Hu; [|done].
    destruct (String.eqb _ _); [|done]. intros [= <- <-].
    unfold AuthResponse_validates. simpl.
    destruct (Haddr _ _ Hu) as [_ ->].
    by rewrite PyDictFacts.get_set_eq. }
  intros authorization payload ev s'. rewrite route_create_event_eq.
  destruct (current_user authorization s) as [[u|c' d'] s0]; [|done].
  rewrite create_event_eq. by intros [= <- <-].
Qed.

Lemma handlers_atomic_witness :
  (forall e u, MOCK_USERS alice_store !! e = Some u ->
     user_email u = e /\ has_at (user_email u) = true)
  /\ (forall req,
        status_code (handle req alice_store).1 = 200
        \/ ((handle req alice_store).2 = alice_store
            /\ (status_code (handle req alice_store).1 = 400
                \/ status_code (handle req alice_store).1 = 401)))
  /\ (forall payload c d s',
        signup payload alice_store = (HTTPException c d, s') -> s' = alice_store)
  /\ (forall payload c d s',
        login payload alice_store = (HTTPException c d, s') -> s' = alice_store)
  /\ (forall authorization payload c d s',
        route_create_event authorization payload alice_store = (HTTPException c d, s') ->
        s' = alice_store)
  /\ (forall payload r s',
        has_at (signup_email payload) = true ->
        signup payload alice_store = (Ok r, s') ->
        AuthResponse_validates has_at r = true
        /\ MOCK_USERS s' !! signup_email payload
           = Some {| user_name := signup_name payload;
                     user_email := signup_email payload;
                     user_password := signup_password payload;
                     user_id := auth_userId r |}
        /\ PyDict.get (MOCK_TOKENS s') (auth_token r) = Some (signup_email payload)
        /\ MOCK_EVENTS s' = MOCK_EVENTS alice_store)
  /\ (forall payload r s', login payload alice_store = (Ok r, s') ->
        AuthResponse_validates has_at r = true
        /\ PyDict.get (MOCK_TOKENS s') (auth_token r) = Some (login_email payload)
        /\ MOCK_USERS s' = MOCK_USERS alice_store
        /\ MOCK_EVENTS s' = MOCK_EVENTS alice_store)
  /\ (forall authorization payload ev s',
        route_create_event authorization payload alice_store = (Ok ev, s') ->
        MOCK_EVENTS s' = (MOCK_EVENTS alice_store ++ [ev])%list
        /\ MOCK_USERS s' = MOCK_USERS alice_store
        /\ MOCK_TOKENS s' = MOCK_TOKENS alice_store).
Proof.
  apply (handlers_atomic has_at alice_store).
  - reflexivity.
  - exact alice_store_reachable.
Defined.

(** ** Response bodies *)

Lemma has_key_strings k l : has_key k (JArr (map JStr l)) = false.
Proof. induction l as [|x l IH]; [done|]. simpl in *. by rewrite IH. Qed.

Lemma has_key_opt {A} k (f : A -> json) o :
  (forall a, has_key k (f a) = false) -> has_key k (opt_json f o) = false.
Proof. intros Hf. destruct o; [apply Hf|done]. Qed.

Lemma has_key_obj_cons k k' v fs :
  has_key k (JObj ((k', v) :: fs))
  = String.eqb k' k || has_key k v || has_key k (JObj fs).
Proof. reflexivity. Qed.

Lemma Event_dump_no_password e : has_key "password" (Event_dump e) = false.
Proof.
  unfold Event_dump. rewrite !has_key_obj_cons.
  rewrite has_key_strings, !has_key_opt; try done.
  intros x. unfold float_json. by destruct (PrimFloat.is_finite x).
Qed.

Lemma Event_dumps_no_password l :
  has_key "password" (JArr (map Event_dump l)) = false.
Proof.
  induction l as [|e l IH]; [done|].
  change (has_key "password" (Event_dump e)
          || has_key "password" (JArr (map Event_dump l)) = false).
  by rewrite Event_dump_no_password, IH.
Qed.

(** No object of a response body has a [password] key, and the successful
    bodies have the keys of their models. *)
Lemma response_keys req s :
  has_key "password" (body (handle req s).1) = false
  /\ match req with
     | PostSignup _ | PostLogin _ =>
         status_code (handle req s).1 = 200 ->
         obj_keys (body (handle req s).1) = ["token"; "name"; "email"; "userId"]
     | GetMe _ =>
         status_code (handle req s).1 = 200 ->
         obj_keys (body (handle req s).1) = ["name"; "email"; "userId"]
     | PostEvents _ _ =>
         status_code (handle req s).1 = 200 ->
         obj_keys (body (handle req s).1)
         = ["id"; "name"; "date"; "budget"; "participants"; "ownerId"; "status";
            "event_type"; "allow_wishlists"; "collect_addresses"; "custom_message"]
     | _ => True
     end.
Proof.
  destruct req; unfold handle, respond.
  - done.
  - done.
  - done.
  - rewrite signup_eq. by destruct (MOCK_USERS s !! _).
  - rewrite login_eq. destruct (MOCK_USERS s !! _) as [u|]; [|done].
    by destruct (String.eqb _ _).
  - rewrite route_me_eq.
    destruct (current_user authorization s) as [[u|c d] s'] eqn:Hu; [done|].
    apply current_user_raises in Hu as [-> ->]. done.
  - rewrite route_list_events_eq.
    destruct (current_user authorization s) as [[u|c d] s'] eqn:Hu; [|done].
    rewrite list_events_eq. split; [|done]. apply Event_dumps_no_password.
  - rewrite route_create_event_eq.
    destruct (current_user authorization s) as [[u|c d] s'] eqn:Hu.
    + rewrite create_event_eq. split; [apply Event_dump_no_password|done].
    + apply current_user_raises in Hu as [-> ->]. done.
Qed.

(** Blanking the passwords keeps the token table, the event list, the keys
    of the user table and everything of a record but its password. *)
Lemma redact_store_inv s s' :
  redact_store s = redact_store s' ->
  MOCK_TOKENS s = MOCK_TOKENS s'
  /\ MOCK_EVENTS s = MOCK_EVENTS s'
  /\ size (MOCK_USERS s) = size (MOCK_USERS s')
  /\ forall e, redact_user <$> (MOCK_USERS s !! e) = redact_user <$> (MOCK_USERS s' !! e).
Proof.
  unfold redact_store, set_users. intros [= HU HT HE].
  split; [done|]. split; [done|]. split.
  - by rewrite <- (map_size_fmap redact_user (MOCK_USERS s)), HU, map_size_fmap.
  - intros e. by rewrite <- !lookup_fmap, HU.
Qed.

Lemma redact_user_eq u u' :
  redact_user u = redact_user u' ->
  user_name u = user_name u' /\ user_email u = user_email u' /\ user_id u = user_id u'.
Proof. by intros [= -> -> ->]. Qed.

(** Who a header authenticates does not depend on the stored passwords. *)
Lemma current_user_redact authorization s s' :
  redact_store s = redact_store s' ->
  match (current_user authorization s).1, (current_user authorization s').1 with
  | Ok u, Ok u' => redact_user u = redact_user u'
  | HTTPException c d, HTTPException c' d' => c = c' /\ d = d'
  | _, _ => False
  end.
Proof.
  intros (HT & _ & _ & HU)%redact_store_inv.
  unfold current_user. destruct (negb _); [done|].
  rewrite !get_user_from_token_eq, <- HT.
  destruct (PyDict.get (MOCK_TOKENS s) _) as [e|]; [|done].
  destruct (PyStr.truthy e); [|done].
  specialize (HU e).
  destruct (MOCK_USERS s !! e), (MOCK_USERS s' !! e); simpl in *; try done.
  congruence.
Qed.

(** C10.  Take two stores that differ at most in the stored passwords and two
    requests that differ at most in the password they send.  If the two
    responses have the same status they have the same body; and unless the
    request is a login they are the same response altogether.  So the body
    of a response never depends on a stored password: the only thing a
    stored password decides is whether a login is answered 200 or 401.  No
    object of a body has a [password] key; a signup or login answered with
    200 has exactly the keys [token], [name], [email] and [userId], [/api/me]
    answered with 200 exactly [name], [email] and [userId], and the body of
    an event the eleven fields of [Event]. *)
Theorem responses_carry_no_password req req' s s' :
  redact_store s = redact_store s' ->
  redact_request req = redact_request req' ->
  (status_code (handle req s).1 = status_code (handle req' s').1 ->
     body (handle req s).1 = body (handle req' s').1)
  /\ ((forall payload, req <> PostLogin payload) ->
        (handle req s).1 = (handle req' s').1)
  /\ has_key "password" (body (handle req s).1) = false
  /\ match req with
     | PostSignup _ | PostLogin _ =>
         status_code (handle req s).1 = 200 ->
         obj_keys (body (handle req s).1) = ["token"; "name"; "email"; "userId"]
     | GetMe _ =>
         status_code (handle req s).1 = 200 ->
         obj_keys (body (handle req s).1) = ["name"; "email"; "userId"]
     | PostEvents _ _ =>
         status_code (handle req s).1 = 200 ->
         obj_keys (body (handle req s).1)
         = ["id"; "name"; "date"; "budget"; "participants"; "ownerId"; "status";
            "event_type"; "allow_wishlists"; "collect_addresses"; "custom_message"]
     | _ => True
     end.
Proof.
  intros Hs Hreq.
  destruct (response_keys req s) as [Hkey Hkeys].
  assert (Hsame : (forall payload, req <> PostLogin payload) ->
                  (handle req s).1 = (handle req' s').1).
  { intros Hnot.
    pose proof (redact_store_inv s s' Hs) as (HT & HE & Hsize & HU).
    destruct req, req'; try discriminate Hreq; try done.
    - injection Hreq as Hn He. unfold handle, respond. rewrite !signup_eq, <- He.
      specialize (HU (signup_email payload)).
      destruct (MOCK_USERS s !! signup_email payload),
        (MOCK_USERS s' !! signup_email payload); simpl in *; try done.
      unfold new_user_id. by rewrite Hn, Hsize.
    - by destruct (Hnot payload).
    - injection Hreq as ->. unfold handle, respond.
      rewrite !route_me_eq.
      pose proof (current_user_redact authorization0 s s' Hs) as Hc.
      destruct (current_user authorization0 s) as [[u|c d] s0],
        (current_user authorization0 s') as [[u'|c' d'] s0']; simpl in Hc; try done.
      + apply redact_user_eq in Hc as (Hn & He & Hi). unfold me. by rewrite Hn, He, Hi.
      + by destruct Hc as [-> ->].
    - injection Hreq as ->. unfold handle, respond.
      rewrite !route_list_events_eq.
      pose proof (current_user_redact authorization0 s s' Hs) as Hc.
      destruct (current_user authorization0 s) as [[u|c d] s0],
        (current_user authorization0 s') as [[u'|c' d'] s0']; simpl in Hc; try done.
      + apply redact_user_eq in Hc as (_ & _ & Hi).
        rewrite !list_events_eq. by rewrite Hi, HE.
      + by destruct Hc as [-> ->].
    - injection Hreq as -> ->. unfold handle, respond.
      rewrite !route_create_event_eq.
      pose proof (current_user_redact authorization0 s s' Hs) as Hc.
      destruct (current_user authorization0 s) as [[u|c d] s0],
        (current_user authorization0 s') as [[u'|c' d'] s0']; simpl in Hc; try done.
      + apply redact_user_eq in Hc as (_ & _ & Hi).
        rewrite !create_event_eq. unfold new_event. by rewrite Hi, HE.
      + by destruct Hc as [-> ->]. }
  split; [|done].
  intros Hstatus.
  assert ((exists payload, req = PostLogin payload)
          \/ (forall payload, req <> PostLogin payload)) as [[payload ->]|Hnot]
    by (destruct req; eauto; right; intros p; discriminate).
  - destruct req'; try discriminate Hreq. injection Hreq as He.
    pose proof (redact_store_inv s s' Hs) as (HT & HE & Hsize & HU).
    revert Hstatus. unfold handle, respond. rewrite !login_eq, <- He.
    specialize (HU (login_email payload)).
    destruct (MOCK_USERS s !! login_email payload) as [u|],
      (MOCK_USERS s' !! login_email payload) as [u'|]; simpl in *; try done.
    assert (redact_user u = redact_user u') as Hr by congruence.
    apply redact_user_eq in Hr as (Hn & Hem & Hi).
    destruct (String.eqb (user_password u) _), (String.eqb (user_password u') _);
        simpl; try done.
      intros _. unfold login_token. simpl. by rewrite <- He, Hn, Hem, Hi, HT.
  - by rewrite Hsame.
Qed.

Lemma responses_carry_no_password_witness :
  (status_code (handle (GetMe (Some "Bearer mocktoken_u_2")) alice_store).1
   = status_code (handle (GetMe (Some "Bearer mocktoken_u_2")) alice_store_q).1 ->
     body (handle (GetMe (Some "Bearer mocktoken_u_2")) alice_store).1
     = body (handle (GetMe (Some "Bearer mocktoken_u_2")) alice_store_q).1)
  /\ ((forall payload, GetMe (Some "Bearer mocktoken_u_2") <> PostLogin payload) ->
        (handle (GetMe (Some "Bearer mocktoken_u_2")) alice_store).1
        = (handle (GetMe (Some "Bearer mocktoken_u_2")) alice_store_q).1)
  /\ has_key "password" (body (handle (GetMe (Some "Bearer mocktoken_u_2")) alice_store).1)
     = false
  /\ (status_code (handle (GetMe (Some "Bearer mocktoken_u_2")) alice_store).1 = 200 ->
      obj_keys (body (handle (GetMe (Some "Bearer mocktoken_u_2")) alice_store).1)
      = ["name"; "email"; "userId"]).
Proof.
  apply (responses_carry_no_password
           (GetMe (Some "Bearer mocktoken_u_2")) (GetMe (Some "Bearer mocktoken_u_2"))
           alice_store alice_store_q).
  - vm_compute. reflexivity.
  - reflexivity.
Defined.

(** * Further properties of the handlers *)

(** ** What a request does to the event list and the user table *)

Lemma current_user_Ok_same authorization s u s' :
  current_user authorization s = (Ok u, s') -> current_user authorization s = (Ok u, s).
Proof. intros H. by destruct (current_user_Ok _ _ _ _ H) as [-> _]. Qed.

(** A request leaves the event list as it is or appends the event one
    authenticated caller asked for, and then leaves the user table alone. *)
Lemma handle_events_cases req s :
  MOCK_EVENTS (handle req s).2 = MOCK_EVENTS s
  \/ exists authorization payload user,
       req = PostEvents authorization payload
       /\ current_user authorization s = (Ok user, s)
       /\ MOCK_EVENTS (handle req s).2
          = (MOCK_EVENTS s ++ [new_event s payload user])%list.
Proof.
  rewrite handle_store. destruct req; try by left.
  - left. rewrite signup_eq. by repeat case_match.
  - left. rewrite login_eq. by repeat case_match.
  - rewrite route_create_event_eq.
    destruct (current_user authorization s) as [[user|c d] s'] eqn:Hu; [|by left].
    right. exists authorization, payload, user.
    split; [done|]. split; [by eapply current_user_Ok_same|].
    by rewrite create_event_eq.
Qed.

(** X1.  In every reachable store the event at position [i] of the list is
    numbered [i + 1], has status ["draft"], a type that is present and not
    empty, and both flags present: what a caller sent as an empty type or as
    a missing flag was replaced when the event was created. *)
Theorem stored_events_normalised (valid_email : string -> bool) s :
  reachable valid_email s ->
  forall i ev, MOCK_EVENTS s !! i = Some ev ->
    ev_id ev = "evt_" +:+ pretty (i + 1)
    /\ ev_status ev = "draft"
    /\ (exists t, ev_event_type ev = Some t /\ t <> "")
    /\ is_Some (ev_allow_wishlists ev)
    /\ is_Some (ev_collect_addresses ev).
Proof.
  induction 1 as [|s req _ IH Hv]; intros i ev.
  - destruct i as [|i]; simpl; [|done]. intros [= <-]. simpl.
    repeat split; eauto.
  - destruct (handle_events_cases req s)
      as [->|(authorization & payload & user & _ & _ & ->)]; [apply IH|].
    intros [Hi|[Hi Hev]]%lookup_app_Some; [by apply IH|].
    destruct (i - length (MOCK_EVENTS s)) as [|j] eqn:Hj; simpl in Hev; [|done].
    injection Hev as <-. simpl.
    replace i with (length (MOCK_EVENTS s)) by lia.
    repeat split; eauto.
    eexists. split; [done|].
    unfold PyStr.or_else. destruct (ec_event_type payload) as [[|a t]|]; done.
Qed.

Lemma stored_events_normalised_witness :
  ev_id demo_event = "evt_" +:+ pretty (0 + 1)
  /\ ev_status demo_event = "draft"
  /\ (exists t, ev_event_type demo_event = Some t /\ t <> "")
  /\ is_Some (ev_allow_wishlists demo_event)
  /\ is_Some (ev_collect_addresses demo_event).
Proof.
  apply (stored_events_normalised has_at alice_store alice_store_reachable 0 demo_event).
  reflexivity.
Defined.

(** Every stored event of a reachable store is owned by a stored user. *)
Lemma reachable_owners_known (valid_email : string -> bool) s :
  reachable valid_email s ->
  forall ev, ev ∈ MOCK_EVENTS s ->
    exists e u, MOCK_USERS s !! e = Some u /\ user_id u = ev_ownerId ev.
Proof.
  induction 1 as [|s req _ IH Hv]; intros ev.
  - intros ->%list_elem_of_singleton.
    exists "demo@giftflow.app", demo_user. by split.
  - assert (Hold : ev ∈ MOCK_EVENTS s ->
              exists e u, MOCK_USERS (handle req s).2 !! e = Some u
                          /\ user_id u = ev_ownerId ev).
    { intros (e & u & Hu & Hid)%IH. exists e, u. split; [|done].
      by apply handle_users_mono. }
    destruct (handle_events_cases req s)
      as [->|(authorization & payload & user & _ & Hcur & ->)]; [done|].
    intros [Hin|Hin]%elem_of_app; [by apply Hold|].
    apply list_elem_of_singleton in Hin as ->.
    apply current_user_Ok in Hcur as (_ & e & Hu).
    exists e, user. split; [by apply handle_users_mono|done].
Qed.

(** X2.  In every reachable store the owner of every stored event is the
    identifier of a record of the user table, and of one record only: the
    event is in the listing of that user and of nobody else. *)
Theorem event_owners_are_users (valid_email : string -> bool) s ev :
  valid_email "" = false ->
  reachable valid_email s ->
  ev ∈ MOCK_EVENTS s ->
  exists e u,
    MOCK_USERS s !! e = Some u
    /\ user_id u = ev_ownerId ev
    /\ ev ∈ filter (fun x => ev_ownerId x = user_id u) (MOCK_EVENTS s)
    /\ forall e' u', MOCK_USERS s !! e' = Some u' ->
          ev ∈ filter (fun x => ev_ownerId x = user_id u') (MOCK_EVENTS s) ->
          e' = e /\ u' = u.
Proof.
  intros Hvalid Hs Hev.
  destruct (reachable_owners_known valid_email s Hs ev Hev) as (e & u & Hu & Hid).
  apply (reachable_inv valid_email Hvalid) in Hs.
  exists e, u. split; [done|]. split; [done|].
  split; [by apply list_elem_of_filter|].
  intros e' u' Hu' [Hid' _]%list_elem_of_filter.
  assert (user_id u' = user_id u) as Heq by congruence.
  pose proof (inv_user_ids_inj s Hs _ _ _ _ Hu' Hu Heq) as ->.
  split; [done|congruence].
Qed.

Lemma event_owners_are_users_witness :
  exists e u,
    MOCK_USERS alice_store !! e = Some u
    /\ user_id u = ev_ownerId demo_event
    /\ demo_event ∈ filter (fun x => ev_ownerId x = user_id u) (MOCK_EVENTS alice_store)
    /\ forall e' u', MOCK_USERS alice_store !! e' = Some u' ->
          demo_event ∈ filter (fun x => ev_ownerId x = user_id u') (MOCK_EVENTS alice_store) ->
          e' = e /\ u' = u.
Proof.
  apply (event_owners_are_users has_at alice_store demo_event).
  - reflexivity.
  - exact alice_store_reachable.
  - apply list_elem_of_singleton. reflexivity.
Defined.

(** X3.  In every reachable store the seeded demo record is still filed under
    its address; every other record has an identifier [u_<k>] with [k]
    between 2 and the number of users; and every such [k] is the identifier
    of some record: identifiers are handed out without gaps. *)
Theorem user_ids_numbered (valid_email : string -> bool) s :
  reachable valid_email s ->
  MOCK_USERS s !! "demo@giftflow.app" = Some demo_user
  /\ (forall e u, MOCK_USERS s !! e = Some u ->
        (e = "demo@giftflow.app" /\ u = demo_user)
        \/ exists k, 2 <= k <= size (MOCK_USERS s) /\ user_id u = "u_" +:+ pretty k)
  /\ (forall k, 2 <= k <= size (MOCK_USERS s) ->
        exists e u, MOCK_USERS s !! e = Some u /\ user_id u = "u_" +:+ pretty k).
Proof.
  induction 1 as [|s req _ (Hdemo & Hall & Hdense) Hv].
  - simpl. split; [done|]. split.
    + intros e u [<- <-]%lookup_singleton_Some. by left.
    + intros k. rewrite map_size_singleton. lia.
  - destruct (handle_users_cases req s) as [->|(payload & _ & Hfresh & ->)]; [done|].
    rewrite map_size_insert_None by done.
    assert (Hsize : 1 <= size (MOCK_USERS s)).
    { destruct (size (MOCK_USERS s)) eqn:Hz; [|lia].
      apply map_size_empty_inv in Hz. rewrite Hz in Hdemo. done. }
    split; [|split].
    + rewrite lookup_insert_ne; [done|congruence].
    + intros e u [[<- <-]|[_ Hu]]%lookup_insert_Some.
      * right. exists (size (MOCK_USERS s) + 1). simpl. split; [lia|done].
      * destruct (Hall e u Hu) as [?|(k & Hk & Hid)]; [by left|].
        right. exists k. split; [lia|done].
    + intros k Hk.
      destruct (decide (k = size (MOCK_USERS s) + 1)) as [->|Hne].
      * eexists _, _. rewrite lookup_insert_eq. split; [done|done].
      * destruct (Hdense k) as (e & u & Hu & Hid); [lia|].
        exists e, u. split; [|done].
        rewrite lookup_insert_ne; [done|congruence].
Qed.

Lemma user_ids_numbered_witness :
  MOCK_USERS alice_store !! "demo@giftflow.app" = Some demo_user
  /\ (forall e u, MOCK_USERS alice_store !! e = Some u ->
        (e = "demo@giftflow.app" /\ u = demo_user)
        \/ exists k, 2 <= k <= size (MOCK_USERS alice_store)
                     /\ user_id u = "u_" +:+ pretty k)
  /\ (forall k, 2 <= k <= size (MOCK_USERS alice_store) ->
        exists e u, MOCK_USERS alice_store !! e = Some u
                    /\ user_id u = "u_" +:+ pretty k).
Proof.
  apply (user_ids_numbered has_at alice_store). exact alice_store_reachable.
Defined.

(** X4.  In every reachable store a key of the token table authenticates:
    its address is the key of a record, the token is the one minted from the
    identifier of that record, it resolves to that record with or without
    the [Bearer ] prefix, and no other token maps to the same address.  The
    second failure of [get_user_from_token], a token whose user is gone, does
    not occur. *)
Theorem stored_tokens_authenticate (valid_email : string -> bool) s token e :
  valid_email "" = false ->
  reachable valid_email s ->
  PyDict.get (MOCK_TOKENS s) token = Some e ->
  exists u,
    MOCK_USERS s !! e = Some u
    /\ token = "mocktoken_" +:+ user_id u
    /\ get_user_from_token token s = (Ok u, s)
    /\ current_user (Some ("Bearer " +:+ token)) s = (Ok u, s)
    /\ current_user (Some token) s = (Ok u, s)
    /\ forall token', PyDict.get (MOCK_TOKENS s) token' = Some e -> token' = token.
Proof.
  intros Hvalid Hs%(reachable_inv valid_email Hvalid) Ht.
  pose proof (PyDictFacts.get_Some_elem _ _ _ Ht) as Hin.
  apply (inv_tokens s Hs) in Hin as (u & Hu & Hm).
  exists u.
  pose (r := {| auth_token := token; auth_name := user_name u;
                auth_email := e; auth_userId := user_id u |}).
  assert (Hissued : issued s r u).
  { unfold issued. simpl. by rewrite (inv_email_key s Hs _ _ Hu). }
  destruct (issued_resolves s r u Hs Hissued) as (Hres & Hcur & Hraw).
  repeat split; try done.
  intros token' Ht'.
  apply PyDictFacts.get_Some_elem, (inv_tokens s Hs) in Ht' as (u' & Hu' & ->).
  by simplify_eq.
Qed.

Lemma stored_tokens_authenticate_witness :
  exists u,
    MOCK_USERS alice_store !! "a@x.com" = Some u
    /\ "mocktoken_u_2" = "mocktoken_" +:+ user_id u
    /\ get_user_from_token "mocktoken_u_2" alice_store = (Ok u, alice_store)
    /\ current_user (Some ("Bearer " +:+ "mocktoken_u_2")) alice_store = (Ok u, alice_store)
    /\ current_user (Some "mocktoken_u_2") alice_store = (Ok u, alice_store)
    /\ forall token', PyDict.get (MOCK_TOKENS alice_store) token' = Some "a@x.com" ->
         token' = "mocktoken_u_2".
Proof.
  apply (stored_tokens_authenticate has_at alice_store "mocktoken_u_2" "a@x.com").
  - reflexivity.
  - exact alice_store_reachable.
  - reflexivity.
Defined.

(** ** Logging in again *)

(** X5.  In every store, whatever the token table holds, a login that
    succeeds can be repeated at once: the second call succeeds with the same
    bundle, token included, and leaves the store exactly as the first one
    left it. *)
Theorem login_idempotent payload s r s1 :
  login payload s = (Ok r, s1) -> login payload s1 = (Ok r, s1).
Proof.
  rewrite login_eq.
  destruct (MOCK_USERS s !! login_email payload) as [u|] eqn:Hu; [|done].
  destruct (String.eqb (user_password u) (login_password payload)) eqn:Hpw; [|done].
  intros [= <- <-]. rewrite login_eq. simpl. rewrite Hu, Hpw.
  rewrite (login_token_after_login s payload u).
  set (tk := login_token s payload u).
  by rewrite (PyDictFacts.set_same _ _ _ (PyDictFacts.get_set_eq (MOCK_TOKENS s) tk _)).
Qed.

Lemma login_idempotent_witness :
  login (mkLoginRequest "demo@giftflow.app" "demo123")
    (login (mkLoginRequest "demo@giftflow.app" "demo123") initial_store).2
  = (Ok (mkAuthResponse "mocktoken_u_demo_1" "Demo User" "demo@giftflow.app" "u_demo_1"),
     (login (mkLoginRequest "demo@giftflow.app" "demo123") initial_store).2).
Proof.
  apply (login_idempotent (mkLoginRequest "demo@giftflow.app" "demo123") initial_store).
  reflexivity.
Defined.

(** The identifier of the next user is not that of a stored one. *)
Lemma new_user_id_fresh s e u :
  store_inv s -> MOCK_USERS s !! e = Some u -> user_id u <> new_user_id s.
Proof.
  intros Hs Hu Heq. destruct (inv_user_ids s Hs e u Hu) as [Hd|(k & Hk & Hid)].
  - rewrite Hd in Heq. by apply demo_id_not_numbered in Heq.
  - rewrite Hid in Heq. unfold new_user_id in Heq.
    apply (inj (String.app "u_")), (inj pretty) in Heq. lia.
Qed.

(** X6.  In a reachable store, a signup that succeeds can be followed at once
    by a login with the same address and password: it returns the bundle the
    signup returned, with the same token, and changes nothing; with any other
    password it is refused with status 401. *)
Theorem signup_then_login (valid_email : string -> bool) s payload r s1 :
  valid_email "" = false ->
  reachable valid_email s ->
  signup payload s = (Ok r, s1) ->
  login {| login_email := signup_email payload;
           login_password := signup_password payload |} s1 = (Ok r, s1)
  /\ forall password, password <> signup_password payload ->
       login {| login_email := signup_email payload; login_password := password |} s1
       = (HTTPException 401 "Invalid email or password", s1).
Proof.
  intros Hvalid Hs%(reachable_inv valid_email Hvalid). rewrite signup_eq.
  destruct (MOCK_USERS s !! signup_email payload) eqn:Hfresh; [done|].
  intros [= <- <-]. split.
  - rewrite login_eq. simpl. rewrite lookup_insert_eq. simpl.
    rewrite String.eqb_refl.
    assert (Htk : forall s', MOCK_TOKENS s'
                = PyDict.set (MOCK_TOKENS s) (mint (new_user_id s)) (signup_email payload) ->
              login_token s' {| login_email := signup_email payload;
                                login_password := signup_password payload |}
                {| user_name := signup_name payload; user_email := signup_email payload;
                   user_password := signup_password payload; user_id := new_user_id s |}
              = mint (new_user_id s)).
    { intros s' Hs'. unfold login_token. simpl. rewrite Hs'.
      destruct (existing_token_set (MOCK_TOKENS s) (mint (new_user_id s))
                  (signup_email payload)) as [->| ->]; [done|].
      destruct (existing_token (MOCK_TOKENS s) (signup_email payload)) as [t|] eqn:Ht;
        [|done].
      apply existing_token_Some, (inv_tokens s Hs) in Ht as (u & Hu & _).
      congruence. }
    rewrite Htk by done.
    by rewrite (PyDictFacts.set_same _ _ _ (PyDictFacts.get_set_eq (MOCK_TOKENS s) _ _)).
  - intros password Hpw. rewrite login_eq. simpl. rewrite lookup_insert_eq. simpl.
    destruct (String.eqb_spec (signup_password payload) password); [congruence|done].
Qed.

Lemma signup_then_login_witness :
  login {| login_email := "a@x.com"; login_password := "p" |}
    (handle alice_signup initial_store).2
  = (Ok (mkAuthResponse "mocktoken_u_2" "A" "a@x.com" "u_2"),
     (handle alice_signup initial_store).2)
  /\ forall password, password <> "p" ->
       login {| login_email := "a@x.com"; login_password := password |}
         (handle alice_signup initial_store).2
       = (HTTPException 401 "Invalid email or password",
          (handle alice_signup initial_store).2).
Proof.
  apply (signup_then_login has_at initial_store (mkSignupRequest "A" "a@x.com" "p")).
  - reflexivity.
  - apply reachable_initial.
  - reflexivity.
Defined.

Lemma filter_none {A} (P : A -> Prop) `{forall x, Decision (P x)} (l : list A) :
  (forall x, x ∈ l -> ~ P x) -> filter P l = [].
Proof.
  induction l as [|x l IH]; intros Hl; [done|].
  rewrite filter_cons_False by (apply Hl; left).
  apply IH. intros y Hy. apply Hl. by right.
Qed.

(** X7.  In a reachable store, the first listing of a user who has just
    signed up is empty: no stored event carries the new identifier. *)
Theorem fresh_user_lists_nothing (valid_email : string -> bool) s payload r s1 :
  valid_email "" = false ->
  reachable valid_email s ->
  valid_email (signup_email payload) = true ->
  signup payload s = (Ok r, s1) ->
  route_list_events (Some ("Bearer " +:+ auth_token r)) s1 = (Ok [], s1).
Proof.
  intros Hvalid Hreach Hv Hr.
  pose proof (reachable_inv valid_email Hvalid s Hreach) as Hs.
  pose proof (signup_inv payload s Hs (valid_email_truthy valid_email Hvalid _ Hv)) as Hs1.
  rewrite Hr in Hs1. simpl in Hs1.
  destruct (signup_issued payload s r s1 Hr) as (A & HA).
  destruct (issued_resolves s1 r A Hs1 HA) as (_ & Hcur & _).
  rewrite route_list_events_eq, Hcur, list_events_eq. f_equal.
  destruct HA as (_ & _ & _ & Hid & _).
  revert Hr. rewrite signup_eq.
  destruct (MOCK_USERS s !! signup_email payload) eqn:Hfresh; [done|].
  intros [= <- <-]. simpl in *.
  rewrite filter_none; [done|]. intros ev Hev Hown.
  destruct (reachable_owners_known valid_email s Hreach ev Hev) as (e & u & Hu & Hu_id).
  apply (new_user_id_fresh s e u Hs Hu). congruence.
Qed.

Lemma fresh_user_lists_nothing_witness :
  route_list_events (Some ("Bearer " +:+ "mocktoken_u_2")) (handle alice_signup initial_store).2
  = (Ok [], (handle alice_signup initial_store).2).
Proof.
  apply (fresh_user_lists_nothing has_at initial_store (mkSignupRequest "A" "a@x.com" "p")
           (mkAuthResponse "mocktoken_u_2" "A" "a@x.com" "u_2")).
  - reflexivity.
  - apply reachable_initial.
  - reflexivity.
  - reflexivity.
Defined.

(** ** Creating, then listing *)

(** Who a header authenticates depends on the user and token tables only. *)
Lemma current_user_frame authorization s s1 :
  MOCK_USERS s1 = MOCK_USERS s -> MOCK_TOKENS s1 = MOCK_TOKENS s ->
  (current_user authorization s1).1 = (current_user authorization s).1.
Proof.
  intros HU HT. unfold current_user. destruct (negb _); [done|].
  rewrite !get_user_from_token_eq, HU, HT. by repeat case_match.
Qed.

Lemma current_user_frame_Ok authorization s s1 u :
  MOCK_USERS s1 = MOCK_USERS s -> MOCK_TOKENS s1 = MOCK_TOKENS s ->
  current_user authorization s = (Ok u, s) -> current_user authorization s1 = (Ok u, s1).
Proof.
  intros HU HT Hu.
  pose proof (current_user_frame authorization s s1 HU HT) as H1.
  pose proof (current_user_store authorization s1) as H2.
  rewrite Hu in H1. destruct (current_user authorization s1) as [res s']. simpl in *.
  by subst.
Qed.

(** X8.  When an authenticated caller creates an event, the caller's next
    listing is the earlier listing followed by the new event, and the listing
    of every caller with another identifier is what it was. *)
Theorem create_then_list authorization payload s A :
  current_user authorization s = (Ok A, s) ->
  exists ev s1,
    route_create_event authorization payload s = (Ok ev, s1)
    /\ (exists before,
          route_list_events authorization s = (Ok before, s)
          /\ route_list_events authorization s1 = (Ok (before ++ [ev])%list, s1))
    /\ forall authorization' B,
         current_user authorization' s = (Ok B, s) ->
         user_id B <> user_id A ->
         exists owned,
           route_list_events authorization' s = (Ok owned, s)
           /\ route_list_events authorization' s1 = (Ok owned, s1).
Proof.
  intros HA. rewrite route_create_event_eq, HA, create_event_eq.
  eexists _, _. split; [reflexivity|].
  set (s1 := {| MOCK_USERS := MOCK_USERS s; MOCK_TOKENS := MOCK_TOKENS s;
                MOCK_EVENTS := (MOCK_EVENTS s ++ [new_event s payload A])%list |}).
  split.
  - eexists. rewrite route_list_events_eq, HA, list_events_eq. split; [reflexivity|].
    rewrite route_list_events_eq,
      (current_user_frame_Ok authorization s s1 A eq_refl eq_refl HA), list_events_eq.
    simpl. rewrite filter_app, filter_cons_True by done. done.
  - intros authorization' B HB Hne. eexists.
    rewrite route_list_events_eq, HB, list_events_eq. split; [reflexivity|].
    rewrite route_list_events_eq,
      (current_user_frame_Ok authorization' s s1 B eq_refl eq_refl HB), list_events_eq.
    simpl. rewrite filter_app, filter_cons_False by (simpl; congruence).
    by rewrite filter_nil, app_nil_r.
Qed.

Lemma create_then_list_witness :
  exists ev s1,
    route_create_event (Some "Bearer mocktoken_u_demo_1")
      (EventCreate_init "Trip" "2025-01-01" no_fields) alice_store = (Ok ev, s1)
    /\ (exists before,
          route_list_events (Some "Bearer mocktoken_u_demo_1") alice_store
          = (Ok before, alice_store)
          /\ route_list_events (Some "Bearer mocktoken_u_demo_1") s1
             = (Ok (before ++ [ev])%list, s1))
    /\ forall authorization' B,
         current_user authorization' alice_store = (Ok B, alice_store) ->
         user_id B <> user_id demo_user ->
         exists owned,
           route_list_events authorization' alice_store = (Ok owned, alice_store)
           /\ route_list_events authorization' s1 = (Ok owned, s1).
Proof.
  apply (create_then_list (Some "Bearer mocktoken_u_demo_1")
           (EventCreate_init "Trip" "2025-01-01" no_fields) alice_store demo_user).
  vm_compute. reflexivity.
Defined.

(** ** The Bearer prefix *)

Lemma startswith_app old s : PyStr.startswith old (old +:+ s) = true.
Proof. induction old as [|a old IH]; simpl; [done|]. by rewrite Ascii.eqb_refl. Qed.

(** An occurrence at the very start is replaced and the scan goes on behind
    it. *)
Lemma replace_at_start a old new s :
  PyStr.replace (String a old +:+ s) (String a old) new
  = new +:+ PyStr.replace s (String a old) new.
Proof.
  unfold PyStr.replace.
  change (String a old +:+ s) with (String a (old +:+ s)).
  cbn [PyStr.replace_scan].
  change (String a (old +:+ s)) with (String a old +:+ s).
  rewrite startswith_app. f_equal.
  replace (String.length (String a old) - 1) with (String.length old) by (simpl; lia).
  apply PyStrFacts.replace_scan_skip.
Qed.

(** X9.  In every store, a header that is empty is refused as a missing one,
    and putting [Bearer ] in front of a non-empty header changes nothing:
    the header with the prefix, without it, or with the prefix twice is
    answered the same way. *)
Theorem Bearer_prefix_is_optional authorization s :
  authorization <> "" ->
  current_user (Some ("Bearer " +:+ authorization)) s = current_user (Some authorization) s
  /\ current_user (Some ("Bearer " +:+ "Bearer " +:+ authorization)) s
     = current_user (Some authorization) s
  /\ current_user (Some "") s = current_user None s.
Proof.
  intros Hne.
  assert (Htruthy : PyStr.truthy authorization = true) by by destruct authorization.
  assert (Hstep : forall h, PyStr.truthy h = true ->
            current_user (Some ("Bearer " +:+ h)) s = current_user (Some h) s).
  { intros h Hh. rewrite !current_user_Some by done.
    by rewrite (replace_at_start "B" "earer " "" h). }
  split; [by apply Hstep|]. split; [|done].
  rewrite Hstep by done. by apply Hstep.
Qed.

Lemma Bearer_prefix_is_optional_witness :
  current_user (Some ("Bearer " +:+ "mocktoken_u_2")) alice_store
  = current_user (Some "mocktoken_u_2") alice_store
  /\ current_user (Some ("Bearer " +:+ "Bearer " +:+ "mocktoken_u_2")) alice_store
     = current_user (Some "mocktoken_u_2") alice_store
  /\ current_user (Some "") alice_store = current_user None alice_store.
Proof.
  apply (Bearer_prefix_is_optional "mocktoken_u_2" alice_store). discriminate.
Defined.

(** ** Status codes and reads *)

Lemma respond_status {A} (dump : A -> json) (h : Handler A) s :
  status_code (respond dump h s).1
  = match (h s).1 with
    | Ok _ => 200
    | HTTPException c _ => c
    end.
Proof. unfold respond. by destruct (h s) as [[a|c d] s']. Qed.

Lemma current_user_status authorization s :
  match (current_user authorization s).1 with
  | Ok _ => True
  | HTTPException c _ => c = 401
  end.
Proof.
  destruct (current_user authorization s) as [[u|c d] s'] eqn:Hu; simpl; [done|].
  by apply current_user_raises in Hu as [-> _].
Qed.

(** X10.  In every store, the five GET routes change nothing, whether they
    answer 200 or 401; so any number of them in a row leaves the three tables
    as they were. *)
Theorem get_routes_read_only s :
  (forall req,
     match req with
     | PostSignup _ | PostLogin _ | PostEvents _ _ => True
     | _ => (handle req s).2 = s
     end)
  /\ (forall reqs,
        forallb (fun req => match req with
                            | PostSignup _ | PostLogin _ | PostEvents _ _ => false
                            | _ => true
                            end) reqs = true ->
        run reqs s = s).
Proof.
  assert (Hone : forall req s0,
            match req with
            | PostSignup _ | PostLogin _ | PostEvents _ _ => True
            | _ => (handle req s0).2 = s0
            end).
  { intros req s0. destruct req; try done; by rewrite handle_store. }
  split; [intros req; apply Hone|].
  intros reqs. revert s. induction reqs as [|req reqs IH]; intros s; simpl; [done|].
  intros [Hreq Hrest]%andb_true_iff.
  pose proof (Hone req s) as Hs. destruct req; try done; rewrite Hs; by apply IH.
Qed.

(** X11.  In every store, a request is answered with status 400 exactly when
    it is a signup whose address is already a key of the user table; and the
    three identity-scoped routes agree on a header: with the same header
    [/api/me], the listing and the creation are all answered 200 or all
    answered 401. *)
Theorem error_statuses req s :
  (status_code (handle req s).1 = 400 <->
     exists payload, req = PostSignup payload
                     /\ is_Some (MOCK_USERS s !! signup_email payload))
  /\ (forall authorization payload,
        status_code (handle (GetMe authorization) s).1
        = status_code (handle (GetEvents authorization) s).1
        /\ status_code (handle (GetMe authorization) s).1
           = status_code (handle (PostEvents authorization payload) s).1
        /\ (status_code (handle (GetMe authorization) s).1 = 200
            \/ status_code (handle (GetMe authorization) s).1 = 401)).
Proof.
  split.
  - destruct req; unfold handle; rewrite respond_status.
    + split; [done|]. by intros (p & ? & _).
    + split; [done|]. by intros (p & ? & _).
    + split; [done|]. by intros (p & ? & _).
    + rewrite signup_eq.
      destruct (MOCK_USERS s !! signup_email payload) as [u|] eqn:Hu; simpl.
      * split; [|done]. intros _. exists payload. by rewrite Hu.
      * split; [done|]. intros (p & [= <-] & [u Hu']). congruence.
    + rewrite login_eq. split; [|by intros (p & ? & _)].
      destruct (MOCK_USERS s !! login_email payload) as [u|]; [|done].
      by destruct (String.eqb _ _).
    + rewrite route_me_eq. split; [|by intros (p & ? & _)].
      pose proof (current_user_status authorization s) as Hc.
      destruct (current_user authorization s) as [[u|c d] s']; simpl in *; [done|].
      subst. done.
    + rewrite route_list_events_eq. split; [|by intros (p & ? & _)].
      pose proof (current_user_status authorization s) as Hc.
      destruct (current_user authorization s) as [[u|c d] s']; simpl in *; [done|].
      subst. done.
    + rewrite route_create_event_eq. split; [|by intros (p & ? & _)].
      pose proof (current_user_status authorization s) as Hc.
      destruct (current_user authorization s) as [[u|c d] s']; simpl in *; [done|].
      subst. done.
  - intros authorization payload. unfold handle. rewrite !respond_status.
    rewrite route_me_eq, route_list_events_eq, route_create_event_eq.
    pose proof (current_user_status authorization s) as Hc.
    destruct (current_user authorization s) as [[u|c d] s']; simpl in *.
    + split; [done|]. split; [done|by left].
    + subst. split; [done|]. split; [done|by right].
Qed.
